(** * gqlgen: the GraphQL-schema code generator of [lib/gqlgen.js]

    A shallow embedding of [generate], [getGraphqlType],
    [getNullableGraphqlType], [getListItemGraphqlType] and of the
    [generate] command's write loop, with the properties of the
    generator stated and proved over it.

    JavaScript values are modelled as the code meets them:
    - a property that a node does not carry reads as [undefined]
      ([None]); reading a property of [undefined] throws a [TypeError];
    - [throw new Error(msg)] is the exception [Error msg];
    - callbacks of [Array.prototype.map] and [Array.prototype.filter]
      run left to right and the first exception aborts the whole call;
    - an object literal inherits the members of [Object.prototype]. *)

From stdpp Require Import base strings list gmap.

(** ** Exceptions and the error monad *)

Inductive exn : Type :=
| TypeError (property : string)   (* Cannot read property '<property>' of undefined *)
| Error (message : string).       (* throw new Error(message) *)

Inductive result (A : Type) : Type :=
| Ok (a : A)
| Throw (e : exn).
Arguments Ok {A} a.
Arguments Throw {A} e.

#[global] Instance result_ret : MRet result := @Ok.
#[global] Instance result_bind : MBind result := λ A B f m,
  match m with Ok a => f a | Throw e => Throw e end.
#[global] Instance result_fmap : FMap result := λ A B f m,
  match m with Ok a => Ok (f a) | Throw e => Throw e end.

#[global] Instance exn_eq_dec : EqDecision exn.
Proof. solve_decision. Defined.

#[global] Instance result_eq_dec {A} `{EqDecision A} : EqDecision (result A).
Proof. solve_decision. Defined.

Definition succeeds {A} (m : result A) : bool :=
  match m with Ok _ => true | Throw _ => false end.

(** [o.p] where [o] may be [undefined]: the read throws on [undefined]. *)
Definition read {A B} (p : string) (field : A → B) (o : option A) : result B :=
  match o with
  | Some a => Ok (field a)
  | None => Throw (TypeError p)
  end.

(** [xs.map(f)] with a callback that may throw. *)
Fixpoint arrayMap {A B} (f : A → result B) (xs : list A) : result (list B) :=
  match xs with
  | [] => Ok []
  | x :: xs' => y ← f x; ys ← arrayMap f xs'; Ok (y :: ys)
  end.

(** [xs.filter(p)] with a predicate that may throw. *)
Fixpoint arrayFilter {A} (p : A → result bool) (xs : list A) : result (list A) :=
  match xs with
  | [] => Ok []
  | x :: xs' =>
      b ← p x; ys ← arrayFilter p xs'; Ok (if b : bool then x :: ys else ys)
  end.

(** ** Type nodes of the parsed document *)

Inductive TypeNode : Type :=
| NamedType (name : string)
| ListType (type : TypeNode)
| NonNullType (type : TypeNode).

Definition node_kind (n : TypeNode) : string :=
  match n with
  | NamedType _ => "NamedType"
  | ListType _ => "ListType"
  | NonNullType _ => "NonNullType"
  end.

(** [n.type]: absent on a named type. *)
Definition node_type (n : TypeNode) : option TypeNode :=
  match n with
  | NamedType _ => None
  | ListType t | NonNullType t => Some t
  end.

(** [n.name] (the name node, identified with its [value]): only a named
    type has one. *)
Definition node_name (n : TypeNode) : option string :=
  match n with
  | NamedType s => Some s
  | ListType _ | NonNullType _ => None
  end.

(** ** The type resolver *)

Record Descriptor : Type := mkDescriptor {
  d_type : string;
  d_isNullable : bool;
  d_isArray : bool
}.

Definition getNullableGraphqlType (fieldType : option TypeNode) : result Descriptor :=
  name ← read "name" node_name fieldType;
  value ← read "value" id name;
  Ok {| d_type := value; d_isNullable := true; d_isArray := false |}.

Definition getListItemGraphqlType (fieldType : option TypeNode) : result string :=
  kind ← read "kind" node_kind fieldType;
  if String.eqb kind "NonNullType" then
    inner ← read "type" node_type fieldType;
    name ← read "name" node_name inner;
    read "value" id name
  else if String.eqb kind "NamedType" then
    name ← read "name" node_name fieldType;
    read "value" id name
  else Throw (Error "Unsupported type nesting level").

Definition getGraphqlType (fieldType : TypeNode) : result Descriptor :=
  let kind := node_kind fieldType in
  if String.eqb kind "NamedType" then
    getNullableGraphqlType (Some fieldType)
  else if String.eqb kind "NonNullType" then
    innerKind ← read "kind" node_kind (node_type fieldType);
    if String.eqb innerKind "NamedType" then
      nestedNamedType ← getNullableGraphqlType (node_type fieldType);
      Ok {| d_type := d_type nestedNamedType; d_isNullable := false; d_isArray := false |}
    else if String.eqb innerKind "ListType" then
      item ← read "type" node_type (node_type fieldType);
      nestedListType ← getListItemGraphqlType item;
      Ok {| d_type := nestedListType; d_isNullable := false; d_isArray := true |}
    else Throw (Error "Unsupported type hierarchy")
  else if String.eqb kind "ListType" then
    item ← read "type" node_type (node_type fieldType);
    nestedListType ← getListItemGraphqlType item;
    Ok {| d_type := nestedListType; d_isNullable := true; d_isArray := true |}
  else Throw (Error "Unsupported case").

(** ** The scalar mapper *)

(** What [scalarMap[k] || k] can evaluate to: a string, or a member
    that the object literal inherits from [Object.prototype]. *)
Inductive jsval : Type :=
| JsUndefined
| JsString (s : string)
| JsInherited (member : string).

Definition graphqlArtifactNames : list string :=
  ["Query"; "Mutation"; "Subscription"; "root"].

Definition scalarMap : list (string * string) :=
  [ ("ID", "string");
    ("String", "string");
    ("Float", "number");
    ("Int", "number");
    ("Boolean", "boolean");
    ("DateTime", "Date");
    ("Dictionary", "{ [key: string]: any }") ].

(** The property names every object literal inherits. *)
Definition objectPrototype : list string :=
  [ "constructor"; "__defineGetter__"; "__defineSetter__"; "hasOwnProperty";
    "__lookupGetter__"; "__lookupSetter__"; "isPrototypeOf";
    "propertyIsEnumerable"; "toString"; "valueOf"; "__proto__";
    "toLocaleString" ].

Fixpoint ownProperty (key : string) (obj : list (string * string)) : option string :=
  match obj with
  | [] => None
  | (k, v) :: obj' => if String.eqb k key then Some v else ownProperty key obj'
  end.

(** [obj[key]] on an object literal: own properties first, then the
    prototype, else [undefined]. *)
Definition getProperty (obj : list (string * string)) (key : string) : jsval :=
  match ownProperty key obj with
  | Some v => JsString v
  | None =>
      if bool_decide (key ∈ objectPrototype) then JsInherited key else JsUndefined
  end.

Definition truthy (v : jsval) : bool :=
  match v with
  | JsUndefined => false
  | JsString s => negb (String.eqb s "")
  | JsInherited _ => true
  end.

(** [a || b] *)
Definition jsOr (a b : jsval) : jsval := if truthy a then a else b.

(** [scalarMap[graphqlType] || graphqlType] *)
Definition scalarType (graphqlType : string) : jsval :=
  jsOr (getProperty scalarMap graphqlType) (JsString graphqlType).

(** [description && description.value || ''], the description node being
    identified with its [value]. *)
Definition descriptionOf (description : option string) : string :=
  match description with
  | None => ""
  | Some value => if String.eqb value "" then "" else value
  end.

(** ** The parsed document

    Nodes are records of the properties [generate] reads; a property a
    node kind does not carry is [None] ([undefined]): a schema
    definition has no [name], an enum has no [fields], an input value
    has no [arguments]. *)

Record InputValueNode : Type := mkInputValue {
  iv_name : string;
  iv_description : option string;
  iv_type : TypeNode
}.

Record FieldNode : Type := mkField {
  f_name : string;
  f_description : option string;
  f_type : TypeNode;
  f_arguments : option (list InputValueNode)
}.

Record EnumValueNode : Type := mkEnumValue {
  ev_name : string;
  ev_description : option string
}.

Record DefinitionNode : Type := mkDefinition {
  def_kind : string;
  def_name : option string;
  def_description : option string;
  def_fields : option (list FieldNode);
  def_values : option (list EnumValueNode)
}.

Record Document : Type := mkDocument {
  definitions : list DefinitionNode
}.

(** ** The records handed to the templates *)

Record FieldRecord : Type := mkFieldRecord {
  fr_name : string;
  fr_description : string;
  fr_graphqlType : string;
  fr_isNullable : bool;
  fr_isArray : bool;
  fr_type : jsval
}.

Record TypeRecord : Type := mkTypeRecord {
  tr_name : string;
  tr_description : string;
  tr_fields : list FieldRecord
}.

Record EnumValueRecord : Type := mkEnumValueRecord {
  evr_name : string;
  evr_description : string
}.

Record EnumRecord : Type := mkEnumRecord {
  er_name : string;
  er_description : string;
  er_values : list EnumValueRecord
}.

Record OperationRecord : Type := mkOperationRecord {
  op_name : string;
  op_description : string;
  op_graphqlType : string;
  op_type : jsval;
  op_isNullable : bool;
  op_isArray : bool;
  op_arguments : list FieldRecord;
  op_hasArguments : bool
}.

Record File : Type := mkFile {
  filename : string;
  contents : string
}.

(** ** Extraction *)

(** The record built for a field of a type or of an input, and for an
    argument of an operation. *)
Definition fieldRecord (name : string) (description : option string)
    (type : TypeNode) : result FieldRecord :=
  d ← getGraphqlType type;
  Ok {| fr_name := name;
        fr_description := descriptionOf description;
        fr_graphqlType := d_type d;
        fr_isNullable := d_isNullable d;
        fr_isArray := d_isArray d;
        fr_type := scalarType (d_type d) |}.

Definition typeRecord (def : DefinitionNode) : result TypeRecord :=
  name ← read "value" id (def_name def);
  fields ← read "map" id (def_fields def);
  records ← arrayMap
    (λ field, fieldRecord (f_name field) (f_description field) (f_type field))
    fields;
  Ok {| tr_name := name;
        tr_description := descriptionOf (def_description def);
        tr_fields := records |}.

Definition enumValueRecord (val : EnumValueNode) : EnumValueRecord :=
  {| evr_name := ev_name val;
     evr_description := descriptionOf (ev_description val) |}.

Definition enumRecord (def : DefinitionNode) : result EnumRecord :=
  name ← read "value" id (def_name def);
  values ← read "map" id (def_values def);
  Ok {| er_name := name;
        er_description := descriptionOf (def_description def);
        er_values := map enumValueRecord values |}.

Definition operationRecord (op : FieldNode) : result OperationRecord :=
  d ← getGraphqlType (f_type op);
  args ← read "map" id (f_arguments op);
  arguments ← arrayMap
    (λ arg, fieldRecord (iv_name arg) (iv_description arg) (iv_type arg))
    args;
  Ok {| op_name := f_name op;
        op_description := descriptionOf (f_description op);
        op_graphqlType := d_type d;
        op_type := scalarType (d_type d);
        op_isNullable := d_isNullable d;
        op_isArray := d_isArray d;
        op_arguments := arguments;
        op_hasArguments := bool_decide (0 < length arguments) |}.

(** [def.kind === 'ObjectTypeDefinition' &&
     graphqlArtifactNames.indexOf(def.name.value) === -1] *)
Definition isObjectType (def : DefinitionNode) : result bool :=
  if String.eqb (def_kind def) "ObjectTypeDefinition" then
    name ← read "value" id (def_name def);
    Ok (bool_decide (name ∉ graphqlArtifactNames))
  else Ok false.

Definition isInputType (def : DefinitionNode) : result bool :=
  Ok (String.eqb (def_kind def) "InputObjectTypeDefinition").

Definition isEnumType (def : DefinitionNode) : result bool :=
  Ok (String.eqb (def_kind def) "EnumTypeDefinition").

(** [def.name.value === root] *)
Definition isNamed (root : string) (def : DefinitionNode) : result bool :=
  name ← read "value" id (def_name def);
  Ok (String.eqb name root).

Definition typeRecords (schema : Document) : result (list TypeRecord) :=
  defs ← arrayFilter isObjectType (definitions schema);
  arrayMap typeRecord defs.

Definition inputRecords (schema : Document) : result (list TypeRecord) :=
  defs ← arrayFilter isInputType (definitions schema);
  arrayMap typeRecord defs.

Definition enumRecords (schema : Document) : result (list EnumRecord) :=
  defs ← arrayFilter isEnumType (definitions schema);
  arrayMap enumRecord defs.

(** [schema.definitions.filter(def => def.name.value === root)[0]
      .fields.map(op => ...)] *)
Definition operationRecords (root : string) (schema : Document)
    : result (list OperationRecord) :=
  defs ← arrayFilter (isNamed root) (definitions schema);
  fields ← read "fields" def_fields (head defs);
  ops ← read "map" id fields;
  arrayMap operationRecord ops.

(** ** Generation and the write loop *)

Section Generator.

(** The compiled templates, [loadTemplate(name)]. *)
Variable typeTemplate : TypeRecord → string.
Variable inputTemplate : TypeRecord → string.
Variable enumTemplate : EnumRecord → string.
Variable resolverTemplate : OperationRecord → string.

Definition typeFile (type : TypeRecord) : File :=
  {| filename := "types/" +:+ tr_name type +:+ ".ts";
     contents := typeTemplate type |}.

Definition inputFile (input : TypeRecord) : File :=
  {| filename := "inputs/" +:+ tr_name input +:+ ".ts";
     contents := inputTemplate input |}.

Definition enumFile (enumType : EnumRecord) : File :=
  {| filename := "types/" +:+ er_name enumType +:+ ".ts";
     contents := enumTemplate enumType |}.

Definition queryFile (op : OperationRecord) : File :=
  {| filename := "resolvers/queries/" +:+ op_name op +:+ ".ts";
     contents := resolverTemplate op |}.

Definition mutationFile (op : OperationRecord) : File :=
  {| filename := "resolvers/mutations/" +:+ op_name op +:+ ".ts";
     contents := resolverTemplate op |}.

Definition types (schema : Document) : result (list File) :=
  map typeFile <$> typeRecords schema.

Definition inputs (schema : Document) : result (list File) :=
  map inputFile <$> inputRecords schema.

Definition enums (schema : Document) : result (list File) :=
  map enumFile <$> enumRecords schema.

Definition queryOperations (schema : Document) : result (list File) :=
  map queryFile <$> operationRecords "Query" schema.

Definition mutationOperations (schema : Document) : result (list File) :=
  map mutationFile <$> operationRecords "Mutation" schema.

Definition generate (schema : Document) : result (list File) :=
  ts ← types schema;
  ins ← inputs schema;
  ens ← enums schema;
  qs ← queryOperations schema;
  ms ← mutationOperations schema;
  Ok (ins ++ ens ++ ts ++ qs ++ ms).

(** [path.resolve] and [path.dirname] of the platform. *)
Variable path_resolve : string → string → string.
Variable path_dirname : string → string.

(** The output sink: the files written, with their contents, and the
    directories made.  The sink itself never fails. *)
Record FS : Type := mkFS {
  fs_files : gmap string string;
  fs_dirs : gset string
}.

Definition existsSync (p : string) (fs : FS) : bool :=
  bool_decide (p ∈ fs_dirs fs) || bool_decide (is_Some (fs_files fs !! p)).

(** The directories above [dir], up to the one [path.dirname] leaves
    unchanged; no path has more of them than it has characters. *)
Fixpoint ancestors (fuel : nat) (dir : string) : list string :=
  match fuel with
  | 0 => []
  | S fuel' =>
      let parent := path_dirname dir in
      if String.eqb parent dir then [] else parent :: ancestors fuel' parent
  end.

(** [fs.mkdirSync(dir, { recursive: true })] *)
Definition mkdirSync (dir : string) (fs : FS) : FS :=
  {| fs_files := fs_files fs;
     fs_dirs := fs_dirs fs ∪ list_to_set (dir :: ancestors (String.length dir) dir) |}.

(** [fs.writeFileSync(p, text, 'utf8')] *)
Definition writeFileSync (p text : string) (fs : FS) : FS :=
  {| fs_files := <[p := text]> (fs_files fs);
     fs_dirs := fs_dirs fs |}.

(** One turn of the loop [for (const file of files)]. *)
Definition writeFile (outputDirectory : string) (fs : FS) (file : File) : FS :=
  let outputFilename := path_resolve outputDirectory (filename file) in
  let dir := path_dirname outputFilename in
  let fs' := if existsSync dir fs then fs else mkdirSync dir fs in
  writeFileSync outputFilename (contents file) fs'.

(** The [generate] command on a parsed schema: the sink afterwards and
    the exception that ended the run, if any. *)
Definition action (schema : Document) (outputDirectory : string) (fs : FS)
    : FS * option exn :=
  match generate schema with
  | Ok files => (foldl (writeFile outputDirectory) fs files, None)
  | Throw e => (fs, Some e)
  end.

End Generator.

(** ** A schema to run the generator on

    [type Widget], [input WidgetInput], [enum Color], a query root and a
    mutation root; the templates print the name of the record. *)

Module Demo.

Definition widget : DefinitionNode :=
  mkDefinition "ObjectTypeDefinition" (Some "Widget") None
    (Some [ mkField "id" None (NonNullType (NamedType "ID")) (Some []);
            mkField "name" (Some "Display name") (NamedType "String") (Some []);
            mkField "tags" None (ListType (NonNullType (NamedType "String"))) (Some []) ])
    None.

Definition widgetInput : DefinitionNode :=
  mkDefinition "InputObjectTypeDefinition" (Some "WidgetInput") None
    (Some [ mkField "name" None (NonNullType (NamedType "String")) None ])
    None.

Definition color : DefinitionNode :=
  mkDefinition "EnumTypeDefinition" (Some "Color") None None
    (Some [ mkEnumValue "red" None; mkEnumValue "blue" (Some "The sky") ]).

Definition query : DefinitionNode :=
  mkDefinition "ObjectTypeDefinition" (Some "Query") None
    (Some [ mkField "widgets" None
              (NonNullType (ListType (NonNullType (NamedType "Widget"))))
              (Some []) ])
    None.

Definition mutation : DefinitionNode :=
  mkDefinition "ObjectTypeDefinition" (Some "Mutation") None
    (Some [ mkField "createWidget" None (NonNullType (NamedType "Widget"))
              (Some [ mkInputValue "input" None (NonNullType (NamedType "String")) ]) ])
    None.

(** [interface Query { ping: Boolean }] *)
Definition queryInterface : DefinitionNode :=
  mkDefinition "InterfaceTypeDefinition" (Some "Query") None
    (Some [ mkField "ping" None (NamedType "Boolean") (Some []) ])
    None.

Definition schema : Document :=
  mkDocument [widget; widgetInput; color; query; mutation].

Definition noMutation : Document :=
  mkDocument [widget; widgetInput; color; query].

Definition noQuery : Document :=
  mkDocument [widget; widgetInput; color; mutation].

Definition typeTemplate (r : TypeRecord) : string := tr_name r.
Definition enumTemplate (r : EnumRecord) : string := er_name r.
Definition resolverTemplate (r : OperationRecord) : string := op_name r.

Definition generate : Document → result (list File) :=
  generate typeTemplate typeTemplate enumTemplate resolverTemplate.

(** What extraction yields for [widget]. *)
Definition widgetRecord : TypeRecord :=
  mkTypeRecord "Widget" ""
    [ mkFieldRecord "id" "" "ID" false false (JsString "string");
      mkFieldRecord "name" "Display name" "String" true false (JsString "string");
      mkFieldRecord "tags" "" "String" true true (JsString "string") ].

(** What generation yields for [schema]. *)
Definition files : list File :=
  [ mkFile "inputs/WidgetInput.ts" "WidgetInput";
    mkFile "types/Color.ts" "Color";
    mkFile "types/Widget.ts" "Widget";
    mkFile "resolvers/queries/widgets.ts" "widgets";
    mkFile "resolvers/mutations/createWidget.ts" "createWidget" ].

Definition path_resolve (directory file : string) : string :=
  directory +:+ "/" +:+ file.

(** The path up to its last separator. *)
Fixpoint upToLastSlash (p : string) : option string :=
  match p with
  | EmptyString => None
  | String c rest =>
      match upToLastSlash rest with
      | Some d => Some (String c d)
      | None => if Ascii.eqb c (Ascii.ascii_of_nat 47) then Some EmptyString else None
      end
  end.

Definition path_dirname (p : string) : string :=
  match upToLastSlash p with
  | Some EmptyString => "/"
  | Some d => d
  | None => "."
  end.

Definition action : Document → string → FS → FS * option exn :=
  action typeTemplate typeTemplate enumTemplate resolverTemplate
    path_resolve path_dirname.

Definition emptyFS : FS := mkFS ∅ ∅.

End Demo.

(** ** What the specification counts and names

    The definitions below follow the specification's words; the theorems
    compare them with what [generate] computes. *)

(** The four recognized shapes of a type node. *)
Definition recognizedShape (t : TypeNode) : bool :=
  match t with
  | NamedType _ => true
  | NonNullType (NamedType _) => true
  | ListType (NamedType _) => true
  | ListType (NonNullType (NamedType _)) => true
  | NonNullType (ListType (NamedType _)) => true
  | NonNullType (ListType (NonNullType (NamedType _))) => true
  | _ => false
  end.

(** The number of definitions of a kind. *)
Definition countKind (kind : string) (schema : Document) : nat :=
  length (filter (λ def, def_kind def = kind) (definitions schema)).

(** An object type definition whose name is not reserved. *)
Definition ordinaryObjectType (def : DefinitionNode) : Prop :=
  def_kind def = "ObjectTypeDefinition" ∧
  ∃ name, def_name def = Some name ∧ name ∉ graphqlArtifactNames.

#[global] Instance ordinaryObjectType_dec def : Decision (ordinaryObjectType def).
Proof.
  unfold ordinaryObjectType.
  destruct (def_name def) as [name|].
  - destruct (decide (def_kind def = "ObjectTypeDefinition"));
      [|right; tauto].
    destruct (decide (name ∉ graphqlArtifactNames)).
    + left. eauto.
    + right. intros (_ & name' & [= <-] & ?). tauto.
  - right. intros (_ & name & [=] & _).
Defined.

Definition countObjectTypes (schema : Document) : nat :=
  length (filter ordinaryObjectType (definitions schema)).

(** The root container: the first definition that carries the name. *)
Definition rootDefinition (root : string) (schema : Document) : option DefinitionNode :=
  head (filter (λ def, def_name def = Some root) (definitions schema)).

(** The number of fields on a root container. *)
Definition countRootFields (root : string) (schema : Document) : nat :=
  match rootDefinition root schema with
  | Some def => length (default [] (def_fields def))
  | None => 0
  end.

(** The output path as the layout table gives it: the directory of the
    category joined with the name of the artifact. *)
Definition layoutPath (directory name : string) : string := directory +:+ name.

(** ** Documents on which generation returns *)

Definition resolves (t : TypeNode) : bool := succeeds (getGraphqlType t).

(** The fields of a type or of an input are there and their types
    resolve. *)
Definition fieldsResolve (fields : option (list FieldNode)) : bool :=
  match fields with
  | Some fs => forallb (λ field, resolves (f_type field)) fs
  | None => false
  end.

(** The fields of a root are there, and so are their arguments; the
    types of both resolve. *)
Definition operationsResolve (fields : option (list FieldNode)) : bool :=
  match fields with
  | Some ops =>
      forallb (λ op,
        resolves (f_type op) &&
        match f_arguments op with
        | Some args => forallb (λ arg, resolves (iv_type arg)) args
        | None => false
        end) ops
  | None => false
  end.

Definition definitionResolves (def : DefinitionNode) : bool :=
  match def_name def with
  | None => false
  | Some _ =>
      (if bool_decide (ordinaryObjectType def) then fieldsResolve (def_fields def)
       else true) &&
      (if String.eqb (def_kind def) "InputObjectTypeDefinition"
       then fieldsResolve (def_fields def) else true) &&
      (if String.eqb (def_kind def) "EnumTypeDefinition"
       then bool_decide (is_Some (def_values def)) else true)
  end.

Definition rootResolves (root : string) (schema : Document) : bool :=
  match rootDefinition root schema with
  | Some def => operationsResolve (def_fields def)
  | None => false
  end.

Definition wellFormed (schema : Document) : bool :=
  forallb definitionResolves (definitions schema) &&
  rootResolves "Query" schema && rootResolves "Mutation" schema.

(** ** Measures of a type node and further sample documents *)

(** The name at the bottom of a type node. *)
Fixpoint leafName (t : TypeNode) : string :=
  match t with
  | NamedType name => name
  | ListType t' | NonNullType t' => leafName t'
  end.

(** The number of list and non-null markers around that name. *)
Fixpoint wrappers (t : TypeNode) : nat :=
  match t with
  | NamedType _ => 0
  | ListType t' | NonNullType t' => S (wrappers t')
  end.

Module Sample.

(** [type Color { hex: String }], beside [enum Color]. *)
Definition colorType : DefinitionNode :=
  mkDefinition "ObjectTypeDefinition" (Some "Color") None
    (Some [ mkField "hex" None (NamedType "String") (Some []) ])
    None.

(** [type Subscription { changed: [[Widget]]! }]: its field has a shape
    the resolver rejects. *)
Definition subscription : DefinitionNode :=
  mkDefinition "ObjectTypeDefinition" (Some "Subscription") None
    (Some [ mkField "changed" None
              (NonNullType (ListType (ListType (NamedType "Widget")))) (Some []) ])
    None.

Definition clash : Document :=
  mkDocument [Demo.color; colorType; Demo.query; Demo.mutation].

(** What extraction yields for [Demo.color] and for [colorType]. *)
Definition colorEnumRecord : EnumRecord :=
  mkEnumRecord "Color" ""
    [ mkEnumValueRecord "red" ""; mkEnumValueRecord "blue" "The sky" ].

Definition colorTypeRecord : TypeRecord :=
  mkTypeRecord "Color" ""
    [ mkFieldRecord "hex" "" "String" true false (JsString "string") ].

(** What extraction yields for the input and the roots of [Demo.schema]. *)
Definition widgetInputRecord : TypeRecord :=
  mkTypeRecord "WidgetInput" ""
    [ mkFieldRecord "name" "" "String" false false (JsString "string") ].

Definition widgetsRecord : OperationRecord :=
  mkOperationRecord "widgets" "" "Widget" (JsString "Widget") false true [] false.

Definition createWidget : FieldNode :=
  mkField "createWidget" None (NonNullType (NamedType "Widget"))
    (Some [ mkInputValue "input" None (NonNullType (NamedType "String")) ]).

Definition createWidgetRecord : OperationRecord :=
  mkOperationRecord "createWidget" "" "Widget" (JsString "Widget") false false
    [ mkFieldRecord "input" "" "String" false false (JsString "string") ] true.

(** What generation yields for [clash]. *)
Definition clashFiles : list File :=
  [ mkFile "types/Color.ts" "Color";
    mkFile "types/Color.ts" "Color";
    mkFile "resolvers/queries/widgets.ts" "widgets";
    mkFile "resolvers/mutations/createWidget.ts" "createWidget" ].

(** [[Widget!]!] and its descriptor. *)
Definition widgetList : TypeNode :=
  NonNullType (ListType (NonNullType (NamedType "Widget"))).

Definition widgetListDescriptor : Descriptor := mkDescriptor "Widget" false true.

End Sample.

(** ** Properties of the error monad and of the array helpers *)

Lemma append_assoc (a b c : string) : (a +:+ b) +:+ c = a +:+ b +:+ c.
Proof.
  induction a as [|x a IH]; [done|].
  change (String x ((a +:+ b) +:+ c) = String x (a +:+ b +:+ c)). by f_equal.
Qed.

Lemma bind_Ok {A B} (m : result A) (f : A → result B) b :
  m ≫= f = Ok b ↔ ∃ a, m = Ok a ∧ f a = Ok b.
Proof.
  destruct m as [a|e]; simpl; split.
  - intros H. by exists a.
  - by intros (a' & [= ->] & H).
  - discriminate.
  - by intros (a' & H & _).
Qed.

Lemma fmap_Ok {A B} (m : result A) (f : A → B) b :
  f <$> m = Ok b ↔ ∃ a, m = Ok a ∧ b = f a.
Proof.
  destruct m as [a|e]; simpl; split.
  - intros [= <-]. by exists a.
  - by intros (a' & [= ->] & ->).
  - discriminate.
  - by intros (a' & H & _).
Qed.

Lemma read_Ok {A B} p (field : A → B) o b :
  read p field o = Ok b ↔ ∃ a, o = Some a ∧ b = field a.
Proof.
  destruct o as [a|]; simpl; split.
  - intros [= <-]. by exists a.
  - by intros (a' & [= ->] & ->).
  - discriminate.
  - by intros (a' & H & _).
Qed.

Lemma arrayMap_Forall2 {A B} (f : A → result B) xs ys :
  arrayMap f xs = Ok ys → Forall2 (λ x y, f x = Ok y) xs ys.
Proof.
  revert ys. induction xs as [|x xs IH]; intros ys; simpl.
  - intros [= <-]. constructor.
  - intros (y & Hy & (ys' & Hys & [= <-])%bind_Ok)%bind_Ok.
    constructor; auto.
Qed.

Lemma Forall2_transfer {A B} (R : A → B → Prop) (P : A → Prop) (Q : B → Prop) xs ys :
  Forall2 R xs ys → Forall P xs → (∀ x y, P x → R x y → Q y) → Forall Q ys.
Proof.
  intros HR HP HQ. induction HR as [|x y xs ys Hxy _ IH]; [constructor|].
  apply list.Forall_cons in HP as [Hx Hxs]. constructor; eauto.
Qed.

Lemma arrayMap_length {A B} (f : A → result B) xs ys :
  arrayMap f xs = Ok ys → length ys = length xs.
Proof. intros H%arrayMap_Forall2. symmetry. by eapply Forall2_length. Qed.

(** When the filter returns, the predicate threw on no element, and the
    elements kept are those it accepted. *)
Lemma arrayFilter_Ok {A} (p : A → result bool) xs ys :
  arrayFilter p xs = Ok ys →
  Forall (λ x, succeeds (p x) = true) xs ∧ ys = filter (λ x, p x = Ok true) xs.
Proof.
  revert ys. induction xs as [|x xs IH]; intros ys; simpl.
  - by intros [= <-].
  - intros (b & Hb & (ys' & Hys & [= <-])%bind_Ok)%bind_Ok.
    destruct (IH _ Hys) as [Hall ->]. split.
    + constructor; [by rewrite Hb|done].
    + rewrite filter_cons. destruct b.
      * by rewrite decide_True.
      * rewrite decide_False; [done|]. rewrite Hb. discriminate.
Qed.

(** ** The type resolver *)

Lemma getListItemGraphqlType_named n :
  getListItemGraphqlType (Some (NamedType n)) = Ok n.
Proof. reflexivity. Qed.

Lemma getListItemGraphqlType_nonnull_named n :
  getListItemGraphqlType (Some (NonNullType (NamedType n))) = Ok n.
Proof. reflexivity. Qed.

(** The list item is read only after the resolver has met a list: on a
    shape that is not a list the resolver returns a descriptor exactly
    on the recognized shapes, and throws on every other. *)
Lemma getGraphqlType_not_list (t : TypeNode) :
  node_kind t ≠ "ListType" →
  succeeds (getGraphqlType t) = recognizedShape t.
Proof.
  destruct t as [n|t|t]; simpl; [done|congruence|intros _].
  destruct t as [n|t|t]; [done| |done].
  destruct t as [n|t|t]; [done|done|].
  by destruct t.
Qed.

(** On a list the resolver inspects the type below the element: it
    returns a descriptor exactly when that type is a named type, bare or
    non-null. *)
Lemma getGraphqlType_list (e : TypeNode) :
  succeeds (getGraphqlType (ListType e)) =
    match node_type e with
    | Some (NamedType _) | Some (NonNullType (NamedType _)) => true
    | _ => false
    end.
Proof.
  destruct e as [n|t|t]; [done| |];
    (destruct t as [n|t|t]; [done|done|]); by destruct t.
Qed.

(** C1: the resolver on the four recognized shapes. A named type, a
    non-null named type, a list of a non-null named type and a non-null
    list of either element shape resolve to the documented triple; the
    list of a bare named type, [[n]], does not: the list case reads the
    type below the element, which a named type lacks, and throws. *)
Theorem getGraphqlType_recognized_shapes (n : string) :
  getGraphqlType (NamedType n) = Ok (mkDescriptor n true false) ∧
  getGraphqlType (NonNullType (NamedType n)) = Ok (mkDescriptor n false false) ∧
  getGraphqlType (ListType (NonNullType (NamedType n))) = Ok (mkDescriptor n true true) ∧
  getGraphqlType (NonNullType (ListType (NamedType n))) = Ok (mkDescriptor n false true) ∧
  getGraphqlType (NonNullType (ListType (NonNullType (NamedType n))))
    = Ok (mkDescriptor n false true) ∧
  getGraphqlType (ListType (NamedType n)) = Throw (TypeError "kind").
Proof. repeat split. Qed.

(** C2: shapes outside the recognized four. A list of lists, [[[n]]] or
    [[[n!]]], is resolved as if it were a list of [n], where its
    non-null sibling [[[n]]!] is rejected. *)
Theorem getGraphqlType_nested_list (n : string) :
  recognizedShape (ListType (ListType (NamedType n))) = false ∧
  getGraphqlType (ListType (ListType (NamedType n))) = Ok (mkDescriptor n true true) ∧
  getGraphqlType (ListType (ListType (NonNullType (NamedType n))))
    = Ok (mkDescriptor n true true) ∧
  getGraphqlType (NonNullType (ListType (ListType (NamedType n))))
    = Throw (Error "Unsupported type nesting level") ∧
  getGraphqlType (NonNullType (NonNullType (NamedType n)))
    = Throw (Error "Unsupported type hierarchy").
Proof. repeat split. Qed.

(** ** The scalar mapper *)

Lemma ownProperty_Some key obj v :
  ownProperty key obj = Some v → (key, v) ∈ obj.
Proof.
  induction obj as [|[k w] obj IH]; cbn [ownProperty]; [done|].
  destruct (String.eqb_spec k key) as [->|_].
  - intros [= ->]. left.
  - intros H. right. auto.
Qed.

Lemma ownProperty_None key obj :
  key ∉ obj.*1 → ownProperty key obj = None.
Proof.
  induction obj as [|[k w] obj IH]; cbn [ownProperty]; [done|].
  rewrite fmap_cons, not_elem_of_cons. cbn [fst]. intros [Hne Hnotin].
  destruct (String.eqb_spec k key) as [->|_]; [done|auto].
Qed.

Lemma scalarMap_truthy :
  Forall (λ kv, truthy (JsString kv.2) = true) scalarMap.
Proof. unfold scalarMap. repeat constructor. Qed.

(** The mapper has no error path: it returns the name, the primitive
    the table gives for it, or a member inherited from the prototype. *)
Lemma scalarType_total (n : string) :
  scalarType n = JsString n
  ∨ (∃ v, scalarType n = JsString v ∧ (n, v) ∈ scalarMap)
  ∨ scalarType n = JsInherited n.
Proof.
  unfold scalarType, jsOr, getProperty.
  destruct (ownProperty n scalarMap) as [v|] eqn:Hown.
  - apply ownProperty_Some in Hown.
    pose proof scalarMap_truthy as Ht.
    rewrite list.Forall_forall in Ht. specialize (Ht _ Hown). cbn [snd] in Ht.
    rewrite Ht. right; left. eauto.
  - case_bool_decide; simpl; auto.
Qed.

(** A name that is neither in the table nor a member of the prototype
    is returned unchanged. *)
Lemma scalarType_passthrough (n : string) :
  n ∉ scalarMap.*1 → n ∉ objectPrototype → scalarType n = JsString n.
Proof.
  intros Htable Hproto. unfold scalarType, jsOr, getProperty.
  rewrite ownProperty_None by done.
  by rewrite bool_decide_false.
Qed.

(** C3: the scalar mapper never throws and maps the seven names of the
    table to their primitives; a name outside the table that
    [Object.prototype] carries is not returned unchanged, the inherited
    member is returned in its place. *)
Theorem scalarType_table_and_prototype :
  scalarType "ID" = JsString "string" ∧
  scalarType "String" = JsString "string" ∧
  scalarType "Float" = JsString "number" ∧
  scalarType "Int" = JsString "number" ∧
  scalarType "Boolean" = JsString "boolean" ∧
  scalarType "DateTime" = JsString "Date" ∧
  scalarType "Dictionary" = JsString "{ [key: string]: any }" ∧
  scalarType "Widget" = JsString "Widget" ∧
  ("constructor" ∉ scalarMap.*1) ∧
  scalarType "constructor" = JsInherited "constructor" ∧
  Forall (λ n, scalarType n = JsInherited n) objectPrototype.
Proof.
  repeat split; try reflexivity.
  - apply (bool_decide_unpack _). by vm_compute.
  - unfold objectPrototype. repeat constructor.
Qed.

(** ** Extraction *)

Lemma filter_none {A} (P : A → Prop) `{∀ x, Decision (P x)} (l : list A) :
  (∀ x, x ∈ l → ¬ P x) → filter P l = [].
Proof.
  intros Hnone. destruct (filter P l) as [|x l'] eqn:Hf; [done|].
  assert (x ∈ filter P l) as [HP Hin]%list_elem_of_filter by (rewrite Hf; left).
  by destruct (Hnone x Hin).
Qed.

Lemma isNamed_true root def :
  isNamed root def = Ok true ↔ def_name def = Some root.
Proof.
  unfold isNamed. destruct (def_name def) as [n|]; simpl; [|done].
  destruct (String.eqb_spec n root); split; congruence.
Qed.

(** On definitions that all carry a name the root filter does not throw. *)
Lemma arrayFilter_isNamed root defs :
  Forall (λ def, is_Some (def_name def)) defs →
  arrayFilter (isNamed root) defs = Ok (filter (λ def, def_name def = Some root) defs).
Proof.
  induction 1 as [|def defs [n Hn] _ IH]; simpl; [done|].
  rewrite IH. unfold isNamed. rewrite Hn. simpl. rewrite filter_cons.
  destruct (String.eqb_spec n root) as [->|Hne].
  - by rewrite decide_True.
  - rewrite decide_False; [done|congruence].
Qed.

Lemma isObjectType_true def :
  isObjectType def = Ok true ↔ ordinaryObjectType def.
Proof.
  unfold isObjectType, ordinaryObjectType.
  destruct (String.eqb_spec (def_kind def) "ObjectTypeDefinition") as [Hk|Hk].
  - destruct (def_name def) as [n|]; simpl.
    + split.
      * intros [= Hn%bool_decide_eq_true]. eauto.
      * intros (_ & n' & [= <-] & Hn). by rewrite bool_decide_true.
    + split; [done|]. by intros (_ & n & [=] & _).
  - split; [done|tauto].
Qed.

Lemma typeRecord_name def r :
  typeRecord def = Ok r → def_name def = Some (tr_name r).
Proof.
  unfold typeRecord.
  intros (name & (n & Hn & ->)%read_Ok & (fs & _ & (rs & _ & [= <-])%bind_Ok)%bind_Ok)%bind_Ok.
  done.
Qed.

Lemma typeRecord_description def r :
  typeRecord def = Ok r → tr_description r = descriptionOf (def_description def).
Proof.
  unfold typeRecord.
  by intros (name & _ & (fs & _ & (rs & _ & [= <-])%bind_Ok)%bind_Ok)%bind_Ok.
Qed.

Lemma enumRecord_description def r :
  enumRecord def = Ok r → er_description r = descriptionOf (def_description def).
Proof.
  unfold enumRecord.
  by intros (name & _ & (vs & _ & [= <-])%bind_Ok)%bind_Ok.
Qed.

Lemma fieldRecord_description name description type r :
  fieldRecord name description type = Ok r →
  fr_name r = name ∧ fr_description r = descriptionOf description.
Proof. unfold fieldRecord. by intros (d & _ & [= <-])%bind_Ok. Qed.

Lemma operationRecord_description op r :
  operationRecord op = Ok r →
  op_name r = f_name op ∧ op_description r = descriptionOf (f_description op).
Proof.
  unfold operationRecord.
  by intros (d & _ & (args & _ & (rs & _ & [= <-])%bind_Ok)%bind_Ok)%bind_Ok.
Qed.

(** When no definition carries the name of a root, the extraction of
    its operations throws; on a document whose definitions all carry a
    name, what it throws is the failed read of [fields] on the missing
    root. *)
Lemma operationRecords_missing root schema :
  (∀ def, def ∈ definitions schema → def_name def ≠ Some root) →
  ∃ e, operationRecords root schema = Throw e ∧
       (Forall (λ def, is_Some (def_name def)) (definitions schema) →
        e = TypeError "fields").
Proof.
  intros Hnone. unfold operationRecords.
  destruct (arrayFilter (isNamed root) (definitions schema)) as [defs|e] eqn:Hf.
  - apply arrayFilter_Ok in Hf as [_ ->].
    assert (filter (λ x, isNamed root x = Ok true) (definitions schema) = []) as ->.
    { apply filter_none. intros def Hin Hn%isNamed_true. by eapply Hnone. }
    simpl. eauto.
  - exists e. split; [done|]. intros Hall.
    rewrite (arrayFilter_isNamed _ _ Hall) in Hf. discriminate.
Qed.

Lemma arrayMap_succeeds {A B} (f : A → result B) xs :
  forallb (λ x, succeeds (f x)) xs = true → ∃ ys, arrayMap f xs = Ok ys.
Proof.
  induction xs as [|x xs IH]; simpl; [eauto|].
  intros [Hx (ys & Hys)%IH]%andb_true_iff.
  destruct (f x) as [y|e]; [|done]. rewrite Hys. simpl. eauto.
Qed.

Lemma forallb_pointwise {A} (f g : A → bool) xs :
  (∀ x, f x = g x) → forallb f xs = forallb g xs.
Proof. intros Hfg. induction xs as [|x xs IH]; simpl; [done|]. by rewrite Hfg, IH. Qed.

Lemma fieldRecord_succeeds name description type :
  resolves type = true → succeeds (fieldRecord name description type) = true.
Proof. unfold resolves, fieldRecord. by destruct (getGraphqlType type). Qed.

Lemma typeRecord_succeeds def :
  is_Some (def_name def) → fieldsResolve (def_fields def) = true →
  succeeds (typeRecord def) = true.
Proof.
  intros [n Hn] Hf. unfold typeRecord. rewrite Hn. simpl.
  destruct (def_fields def) as [fs|]; [|done]. simpl in *.
  destruct (arrayMap_succeeds
    (λ field, fieldRecord (f_name field) (f_description field) (f_type field)) fs)
    as [rs ->]; [|done].
  rewrite <- Hf. apply forallb_pointwise. intros field.
  unfold fieldRecord, resolves. by destruct (getGraphqlType (f_type field)).
Qed.

Lemma enumRecord_succeeds def :
  is_Some (def_name def) → is_Some (def_values def) →
  succeeds (enumRecord def) = true.
Proof. intros [n Hn] [vs Hvs]. unfold enumRecord. by rewrite Hn, Hvs. Qed.

Lemma operationRecord_succeeds op :
  resolves (f_type op) = true →
  match f_arguments op with
  | Some args => forallb (λ arg, resolves (iv_type arg)) args
  | None => false
  end = true →
  succeeds (operationRecord op) = true.
Proof.
  unfold resolves, operationRecord. intros Ht Hargs.
  destruct (getGraphqlType (f_type op)) as [d|]; [|done]. simpl.
  destruct (f_arguments op) as [args|]; [|done]. simpl.
  destruct (arrayMap_succeeds
    (λ arg, fieldRecord (iv_name arg) (iv_description arg) (iv_type arg)) args)
    as [rs ->]; [|done].
  rewrite <- Hargs. apply forallb_pointwise. intros arg.
  unfold fieldRecord, resolves. by destruct (getGraphqlType (iv_type arg)).
Qed.

Lemma arrayMap_succeeds_Forall {A B} (f : A → result B) xs :
  Forall (λ x, succeeds (f x) = true) xs → ∃ ys, arrayMap f xs = Ok ys.
Proof.
  induction 1 as [|x xs Hx _ [ys IH]]; simpl; [eauto|].
  destruct (f x) as [y|e]; [|done]. rewrite IH. simpl. eauto.
Qed.

Lemma arrayFilter_succeeds {A} (p : A → result bool) xs :
  Forall (λ x, succeeds (p x) = true) xs →
  arrayFilter p xs = Ok (filter (λ x, p x = Ok true) xs).
Proof.
  induction 1 as [|x xs Hx _ IH]; simpl; [done|].
  rewrite IH, filter_cons. destruct (p x) as [[]|e]; simpl; try done.
Qed.

Lemma isKind_true kind def :
  Ok (String.eqb (def_kind def) kind) = Ok true ↔ def_kind def = kind.
Proof. destruct (String.eqb_spec (def_kind def) kind); split; congruence. Qed.

(** *** The records of each category, counted *)

Lemma typeRecords_length schema records :
  typeRecords schema = Ok records → length records = countObjectTypes schema.
Proof.
  unfold typeRecords, countObjectTypes.
  intros (defs & [_ ->]%arrayFilter_Ok & ->%arrayMap_length)%bind_Ok.
  f_equal. apply list_filter_iff, isObjectType_true.
Qed.

Lemma inputRecords_length schema records :
  inputRecords schema = Ok records →
  length records = countKind "InputObjectTypeDefinition" schema.
Proof.
  unfold inputRecords, countKind.
  intros (defs & [_ ->]%arrayFilter_Ok & ->%arrayMap_length)%bind_Ok.
  f_equal. apply list_filter_iff. intros def. apply isKind_true.
Qed.

Lemma enumRecords_length schema records :
  enumRecords schema = Ok records →
  length records = countKind "EnumTypeDefinition" schema.
Proof.
  unfold enumRecords, countKind.
  intros (defs & [_ ->]%arrayFilter_Ok & ->%arrayMap_length)%bind_Ok.
  f_equal. apply list_filter_iff. intros def. apply isKind_true.
Qed.

(** When the operations of a root are extracted, they are those of the
    fields of the first definition that carries the root's name. *)
Lemma operationRecords_Ok root schema records :
  operationRecords root schema = Ok records →
  ∃ def ops, rootDefinition root schema = Some def ∧ def_fields def = Some ops ∧
             arrayMap operationRecord ops = Ok records.
Proof.
  unfold operationRecords, rootDefinition.
  intros (defs & [_ ->]%arrayFilter_Ok &
          (fields & (def & Hhead & ->)%read_Ok &
           (ops & (ops' & Hfields & ->)%read_Ok & Hmap)%bind_Ok)%bind_Ok)%bind_Ok.
  exists def, ops'. split; [|done].
  rewrite <- Hhead. f_equal. apply list_filter_iff. intros x. symmetry. apply isNamed_true.
Qed.

Lemma operationRecords_length root schema records :
  operationRecords root schema = Ok records →
  length records = countRootFields root schema.
Proof.
  intros (def & ops & Hroot & Hfields & ->%arrayMap_length)%operationRecords_Ok.
  unfold countRootFields. by rewrite Hroot, Hfields.
Qed.

(** *** Extraction returns on a well-formed document *)

Lemma wellFormed_named schema :
  forallb definitionResolves (definitions schema) = true →
  Forall (λ def, is_Some (def_name def)) (definitions schema).
Proof.
  rewrite forallb_forall, list.Forall_forall. intros Hall def Hin%list_elem_of_In.
  specialize (Hall def Hin). unfold definitionResolves in Hall.
  by destruct (def_name def).
Qed.

Lemma typeRecords_succeeds schema :
  forallb definitionResolves (definitions schema) = true →
  succeeds (typeRecords schema) = true.
Proof.
  intros Hwf. pose proof (wellFormed_named _ Hwf) as Hnamed.
  unfold typeRecords. rewrite arrayFilter_succeeds.
  - simpl.
    destruct (arrayMap_succeeds_Forall typeRecord
      (filter (λ x, isObjectType x = Ok true) (definitions schema))) as [rs ->]; [|done].
    apply list.Forall_forall. intros def [Hobj%isObjectType_true Hin]%list_elem_of_filter.
    rewrite forallb_forall in Hwf. specialize (Hwf def (proj1 (list_elem_of_In _ _) Hin)).
    unfold definitionResolves in Hwf.
    destruct (def_name def) as [n|] eqn:Hn; [|done].
    rewrite bool_decide_true in Hwf by done.
    apply andb_true_iff in Hwf as [[Hf _]%andb_true_iff _].
    apply typeRecord_succeeds; [by rewrite Hn|done].
  - eapply list.Forall_impl; [exact Hnamed|]. intros def [n Hn].
    unfold isObjectType. rewrite Hn. by case_match.
Qed.

Lemma inputRecords_succeeds schema :
  forallb definitionResolves (definitions schema) = true →
  succeeds (inputRecords schema) = true.
Proof.
  intros Hwf. unfold inputRecords. rewrite arrayFilter_succeeds.
  - simpl.
    destruct (arrayMap_succeeds_Forall typeRecord
      (filter (λ x, isInputType x = Ok true) (definitions schema))) as [rs ->]; [|done].
    apply list.Forall_forall. intros def [Hk%isKind_true Hin]%list_elem_of_filter.
    rewrite forallb_forall in Hwf. specialize (Hwf def (proj1 (list_elem_of_In _ _) Hin)).
    unfold definitionResolves in Hwf.
    destruct (def_name def) as [n|] eqn:Hn; [|done].
    rewrite Hk in Hwf. simpl in Hwf.
    apply andb_true_iff in Hwf as [[_ Hf]%andb_true_iff _].
    apply typeRecord_succeeds; [by rewrite Hn|done].
  - by apply list.Forall_forall.
Qed.

Lemma enumRecords_succeeds schema :
  forallb definitionResolves (definitions schema) = true →
  succeeds (enumRecords schema) = true.
Proof.
  intros Hwf. unfold enumRecords. rewrite arrayFilter_succeeds.
  - simpl.
    destruct (arrayMap_succeeds_Forall enumRecord
      (filter (λ x, isEnumType x = Ok true) (definitions schema))) as [rs ->]; [|done].
    apply list.Forall_forall. intros def [Hk%isKind_true Hin]%list_elem_of_filter.
    rewrite forallb_forall in Hwf. specialize (Hwf def (proj1 (list_elem_of_In _ _) Hin)).
    unfold definitionResolves in Hwf.
    destruct (def_name def) as [n|] eqn:Hn; [|done].
    rewrite Hk in Hwf. simpl in Hwf.
    apply andb_true_iff in Hwf as [_ Hv%bool_decide_eq_true].
    apply enumRecord_succeeds; [by rewrite Hn|done].
  - by apply list.Forall_forall.
Qed.

Lemma operationRecords_succeeds root schema :
  forallb definitionResolves (definitions schema) = true →
  rootResolves root schema = true →
  succeeds (operationRecords root schema) = true.
Proof.
  intros Hnamed%wellFormed_named Hroot.
  unfold operationRecords. rewrite (arrayFilter_isNamed _ _ Hnamed). simpl.
  unfold rootResolves, rootDefinition in Hroot.
  destruct (head _) as [def|]; [|done]. simpl.
  destruct (def_fields def) as [ops|]; [|done]. simpl in *.
  destruct (arrayMap_succeeds_Forall operationRecord ops) as [rs ->]; [|done].
  apply list.Forall_forall. intros op Hin%list_elem_of_In.
  rewrite forallb_forall in Hroot. apply Hroot in Hin as [Ht Hargs]%andb_true_iff.
  by apply operationRecord_succeeds.
Qed.

(** *** Extraction returns on a well-formed document only *)

Lemma arrayMap_Ok_forallb {A B} (f : A → result B) xs ys :
  arrayMap f xs = Ok ys → forallb (λ x, succeeds (f x)) xs = true.
Proof.
  intros H%arrayMap_Forall2. induction H as [|x y xs ys Hxy _ IH]; simpl; [done|].
  by rewrite Hxy, IH.
Qed.

Lemma arrayMap_Ok_elem {A B} (f : A → result B) xs ys x :
  arrayMap f xs = Ok ys → x ∈ xs → succeeds (f x) = true.
Proof.
  intros H%arrayMap_Ok_forallb Hin%list_elem_of_In.
  rewrite forallb_forall in H. by apply H.
Qed.

Lemma fieldRecord_Ok_resolves name description type :
  succeeds (fieldRecord name description type) = resolves type.
Proof. unfold fieldRecord, resolves. by destruct (getGraphqlType type). Qed.

Lemma typeRecord_Ok_resolves def :
  succeeds (typeRecord def) = true → fieldsResolve (def_fields def) = true.
Proof.
  unfold typeRecord, fieldsResolve.
  destruct (def_name def) as [n|]; [|done]. simpl.
  destruct (def_fields def) as [fs|]; [|done]. simpl.
  destruct (arrayMap _ fs) as [rs|] eqn:Hmap; [|done]. intros _.
  apply arrayMap_Ok_forallb in Hmap. rewrite <- Hmap.
  apply forallb_pointwise. intros field. by rewrite fieldRecord_Ok_resolves.
Qed.

Lemma enumRecord_Ok_values def :
  succeeds (enumRecord def) = true → is_Some (def_values def).
Proof.
  unfold enumRecord. destruct (def_name def) as [n|]; [|done]. simpl.
  by destruct (def_values def).
Qed.

Lemma operationRecord_Ok_resolves op :
  succeeds (operationRecord op) = true →
  resolves (f_type op) &&
  match f_arguments op with
  | Some args => forallb (λ arg, resolves (iv_type arg)) args
  | None => false
  end = true.
Proof.
  unfold operationRecord, resolves.
  destruct (getGraphqlType (f_type op)) as [d|]; [|done]. simpl.
  destruct (f_arguments op) as [args|]; [|done]. simpl.
  destruct (arrayMap _ args) as [rs|] eqn:Hmap; [|done]. intros _.
  apply arrayMap_Ok_forallb in Hmap. rewrite <- Hmap.
  apply forallb_pointwise. intros arg. by rewrite fieldRecord_Ok_resolves.
Qed.

Lemma rootResolves_of_Ok root schema records :
  operationRecords root schema = Ok records → rootResolves root schema = true.
Proof.
  intros (def & ops & Hroot & Hfields & Hmap%arrayMap_Ok_forallb)%operationRecords_Ok.
  unfold rootResolves, operationsResolve. rewrite Hroot, Hfields, <- Hmap.
  apply forallb_pointwise. intros op.
  destruct (operationRecord op) eqn:Hop; simpl.
  - apply operationRecord_Ok_resolves. by rewrite Hop.
  - apply not_true_is_false. intros [Ht Hargs]%andb_true_iff.
    pose proof (operationRecord_succeeds op Ht Hargs) as Hs. by rewrite Hop in Hs.
Qed.

Lemma definitionResolves_of_Ok schema trs irs ers qrs def :
  typeRecords schema = Ok trs →
  inputRecords schema = Ok irs →
  enumRecords schema = Ok ers →
  operationRecords "Query" schema = Ok qrs →
  def ∈ definitions schema →
  definitionResolves def = true.
Proof.
  unfold typeRecords, inputRecords, enumRecords, operationRecords.
  intros (tdefs & [_ ->]%arrayFilter_Ok & Ht)%bind_Ok
         (idefs & [_ ->]%arrayFilter_Ok & Hi)%bind_Ok
         (edefs & [_ ->]%arrayFilter_Ok & He)%bind_Ok
         (qdefs & [Hnamed _]%arrayFilter_Ok & _)%bind_Ok Hin.
  rewrite list.Forall_forall in Hnamed. specialize (Hnamed def Hin).
  unfold definitionResolves, isNamed in *.
  destruct (def_name def) as [n|] eqn:Hn; [clear Hnamed|done].
  repeat (apply andb_true_iff; split).
  - case_bool_decide as Hobj; [|done].
    apply typeRecord_Ok_resolves. eapply arrayMap_Ok_elem; [exact Ht|].
    apply list_elem_of_filter. split; [by apply isObjectType_true|done].
  - destruct (String.eqb_spec (def_kind def) "InputObjectTypeDefinition") as [Hk|]; [|done].
    apply typeRecord_Ok_resolves. eapply arrayMap_Ok_elem; [exact Hi|].
    apply list_elem_of_filter. split; [by apply isKind_true|done].
  - destruct (String.eqb_spec (def_kind def) "EnumTypeDefinition") as [Hk|]; [|done].
    apply bool_decide_eq_true, enumRecord_Ok_values.
    eapply arrayMap_Ok_elem; [exact He|].
    apply list_elem_of_filter. split; [by apply isKind_true|done].
Qed.

(** ** Generation *)

Section GeneratorProperties.

Variable typeTemplate : TypeRecord → string.
Variable inputTemplate : TypeRecord → string.
Variable enumTemplate : EnumRecord → string.
Variable resolverTemplate : OperationRecord → string.
Variable path_resolve : string → string → string.
Variable path_dirname : string → string.

Local Abbreviation generate :=
  (generate typeTemplate inputTemplate enumTemplate resolverTemplate).
Local Abbreviation action :=
  (action typeTemplate inputTemplate enumTemplate resolverTemplate
     path_resolve path_dirname).
Local Abbreviation writeFile := (writeFile path_resolve path_dirname).
Local Abbreviation mkdirSync := (mkdirSync path_dirname).

(** Generation returns exactly when the five extractions return, and
    then its files are theirs, rendered, in the order inputs, enums,
    types, queries, mutations. *)
Lemma generate_Ok schema files :
  generate schema = Ok files ↔
  ∃ irs ers trs qrs mrs,
    inputRecords schema = Ok irs ∧
    enumRecords schema = Ok ers ∧
    typeRecords schema = Ok trs ∧
    operationRecords "Query" schema = Ok qrs ∧
    operationRecords "Mutation" schema = Ok mrs ∧
    files = map (inputFile inputTemplate) irs ++ map (enumFile enumTemplate) ers ++
            map (typeFile typeTemplate) trs ++ map (queryFile resolverTemplate) qrs ++
            map (mutationFile resolverTemplate) mrs.
Proof.
  unfold generate, types, inputs, enums, queryOperations, mutationOperations.
  split.
  - intros (ts & (trs & Ht & ->)%fmap_Ok &
            (ins & (irs & Hi & ->)%fmap_Ok &
             (ens & (ers & He & ->)%fmap_Ok &
              (qs & (qrs & Hq & ->)%fmap_Ok &
               (ms & (mrs & Hm & ->)%fmap_Ok & [= <-])%bind_Ok)%bind_Ok)%bind_Ok)%bind_Ok)%bind_Ok.
    by exists irs, ers, trs, qrs, mrs.
  - intros (irs & ers & trs & qrs & mrs & -> & -> & -> & -> & -> & ->). done.
Qed.

Lemma generate_Throw schema root e :
  root = "Query" ∨ root = "Mutation" →
  operationRecords root schema = Throw e →
  ∃ e', generate schema = Throw e'.
Proof.
  intros Hroot Hthrow. destruct (generate schema) as [files|e'] eqn:Hg; [|eauto].
  apply generate_Ok in Hg as (irs & ers & trs & qrs & mrs & _ & _ & _ & Hq & Hm & _).
  destruct Hroot as [-> | ->]; congruence.
Qed.

(** C4: a document in which no definition carries the name of the
    query root (of the mutation root) makes the extraction of that
    root's operations throw, on the failed read of [fields] on the
    missing root when every definition carries a name; generation
    throws with it, and the command leaves the sink as it found it:
    no file has been written. *)
Theorem missing_root_aborts (root : string) (schema : Document)
    (outputDirectory : string) (fs : FS) :
  root = "Query" ∨ root = "Mutation" →
  Forall (λ def, def_name def ≠ Some root) (definitions schema) →
  (∃ e, operationRecords root schema = Throw e ∧
        (Forall (λ def, is_Some (def_name def)) (definitions schema) →
         e = TypeError "fields")) ∧
  (∃ e, generate schema = Throw e ∧
        action schema outputDirectory fs = (fs, Some e)).
Proof.
  intros Hroot Hnone. rewrite list.Forall_forall in Hnone.
  destruct (operationRecords_missing root schema Hnone) as (e & He & Hfields).
  split; [eauto|].
  destruct (generate_Throw schema root e Hroot He) as [e' He'].
  exists e'. split; [done|]. unfold action. by rewrite He'.
Qed.

(** C5: no record of the object-type category carries one of the
    reserved names [Query], [Mutation], [Subscription], [root]; every
    record comes from an object type definition. *)
Theorem typeRecords_exclude_reserved (schema : Document) (records : list TypeRecord) :
  typeRecords schema = Ok records →
  Forall (λ r, (tr_name r ∉ graphqlArtifactNames) ∧
               ∃ def, def ∈ definitions schema ∧
                      def_kind def = "ObjectTypeDefinition" ∧
                      def_name def = Some (tr_name r)) records.
Proof.
  unfold typeRecords.
  intros (defs & [_ ->]%arrayFilter_Ok & Hmap%arrayMap_Forall2)%bind_Ok.
  eapply Forall2_transfer; [exact Hmap| |].
  - apply list.Forall_forall. intros def Hin. exact Hin.
  - intros def r [(Hkind & n & Hn & Hnot)%isObjectType_true Hin]%list_elem_of_filter
      Hr%typeRecord_name.
    assert (n = tr_name r) as -> by congruence. eauto.
Qed.

Lemma generate_Ok_lengths schema files :
  generate schema = Ok files →
  ∃ ins ens ts qs ms,
    inputs inputTemplate schema = Ok ins ∧
    enums enumTemplate schema = Ok ens ∧
    types typeTemplate schema = Ok ts ∧
    queryOperations resolverTemplate schema = Ok qs ∧
    mutationOperations resolverTemplate schema = Ok ms ∧
    files = ins ++ ens ++ ts ++ qs ++ ms ∧
    length ins = countKind "InputObjectTypeDefinition" schema ∧
    length ens = countKind "EnumTypeDefinition" schema ∧
    length ts = countObjectTypes schema ∧
    length qs = countRootFields "Query" schema ∧
    length ms = countRootFields "Mutation" schema.
Proof.
  intros (irs & ers & trs & qrs & mrs & Hi & He & Ht & Hq & Hm & ->)%generate_Ok.
  eexists _, _, _, _, _.
  unfold inputs, enums, types, queryOperations, mutationOperations.
  rewrite Hi, He, Ht, Hq, Hm. simpl. repeat split; rewrite length_map.
  - by apply inputRecords_length.
  - by apply enumRecords_length.
  - by apply typeRecords_length.
  - by apply operationRecords_length.
  - by apply operationRecords_length.
Qed.

(** Generation returns on a well-formed document. *)
Lemma generate_succeeds schema :
  wellFormed schema = true → succeeds (generate schema) = true.
Proof.
  unfold wellFormed. intros [[Hdefs Hq]%andb_true_iff Hm]%andb_true_iff.
  pose proof (typeRecords_succeeds _ Hdefs) as Ht.
  pose proof (inputRecords_succeeds _ Hdefs) as Hi.
  pose proof (enumRecords_succeeds _ Hdefs) as He.
  pose proof (operationRecords_succeeds _ _ Hdefs Hq) as Hqs.
  pose proof (operationRecords_succeeds _ _ Hdefs Hm) as Hms.
  unfold generate, types, inputs, enums, queryOperations, mutationOperations.
  destruct (typeRecords schema); [|done].
  destruct (inputRecords schema); [|done].
  destruct (enumRecords schema); [|done].
  destruct (operationRecords "Query" schema); [|done].
  by destruct (operationRecords "Mutation" schema).
Qed.

(** Generation returns on no other document. *)
Lemma generate_Ok_wellFormed schema files :
  generate schema = Ok files → wellFormed schema = true.
Proof.
  intros (irs & ers & trs & qrs & mrs & Hi & He & Ht & Hq & Hm & _)%generate_Ok.
  unfold wellFormed. repeat (apply andb_true_iff; split).
  - apply forallb_forall. intros def Hin%list_elem_of_In.
    by eapply definitionResolves_of_Ok.
  - by eapply rootResolves_of_Ok.
  - by eapply rootResolves_of_Ok.
Qed.

(** C6: on a well-formed document, one with both roots and on which
    every type resolves, generation returns the files of the inputs,
    then of the enums, then of the object types, then of the query
    operations, then of the mutation operations: as many as there are
    input definitions, enum definitions, object type definitions with a
    name that is not reserved, fields on the query root and fields on
    the mutation root. *)
Theorem generate_cardinality (schema : Document) :
  wellFormed schema = true →
  ∃ ins ens ts qs ms,
    inputs inputTemplate schema = Ok ins ∧
    enums enumTemplate schema = Ok ens ∧
    types typeTemplate schema = Ok ts ∧
    queryOperations resolverTemplate schema = Ok qs ∧
    mutationOperations resolverTemplate schema = Ok ms ∧
    generate schema = Ok (ins ++ ens ++ ts ++ qs ++ ms) ∧
    length ins = countKind "InputObjectTypeDefinition" schema ∧
    length ens = countKind "EnumTypeDefinition" schema ∧
    length ts = countObjectTypes schema ∧
    length qs = countRootFields "Query" schema ∧
    length ms = countRootFields "Mutation" schema ∧
    length (ins ++ ens ++ ts ++ qs ++ ms) =
      countKind "InputObjectTypeDefinition" schema +
      countKind "EnumTypeDefinition" schema +
      countObjectTypes schema +
      countRootFields "Query" schema +
      countRootFields "Mutation" schema.
Proof.
  intros Hwf%generate_succeeds.
  destruct (generate schema) as [files|] eqn:Hg; [|done].
  destruct (generate_Ok_lengths _ _ Hg)
    as (ins & ens & ts & qs & ms & Hi & He & Ht & Hq & Hm & -> & Li & Le & Lt & Lq & Lm).
  exists ins, ens, ts, qs, ms. repeat split; try done.
  rewrite !length_app. lia.
Qed.

(** C7: the path of every generated file is the directory of its
    category, the name of the artifact and the extension [.ts]:
    [inputs/] for the inputs, [types/] for the enums and the object
    types, [resolvers/queries/] and [resolvers/mutations/] for the
    operations. *)
Theorem generate_paths (schema : Document) (files : list File) :
  generate schema = Ok files →
  ∃ irs ers trs qrs mrs,
    inputRecords schema = Ok irs ∧
    enumRecords schema = Ok ers ∧
    typeRecords schema = Ok trs ∧
    operationRecords "Query" schema = Ok qrs ∧
    operationRecords "Mutation" schema = Ok mrs ∧
    map filename files =
      map (λ r, layoutPath "inputs/" (tr_name r) +:+ ".ts") irs ++
      map (λ r, layoutPath "types/" (er_name r) +:+ ".ts") ers ++
      map (λ r, layoutPath "types/" (tr_name r) +:+ ".ts") trs ++
      map (λ r, layoutPath "resolvers/queries/" (op_name r) +:+ ".ts") qrs ++
      map (λ r, layoutPath "resolvers/mutations/" (op_name r) +:+ ".ts") mrs.
Proof.
  intros (irs & ers & trs & qrs & mrs & Hi & He & Ht & Hq & Hm & ->)%generate_Ok.
  exists irs, ers, trs, qrs, mrs. repeat split; try done.
  rewrite !map_app, !map_map. unfold layoutPath.
  repeat f_equal; apply map_ext; intros r; simpl; by rewrite append_assoc.
Qed.

(** *** The write loop *)

Lemma existsSync_true p fs :
  existsSync p fs = true ↔ p ∈ fs_dirs fs ∨ is_Some (fs_files fs !! p).
Proof.
  unfold existsSync. rewrite orb_true_iff, !bool_decide_eq_true. done.
Qed.

Lemma existsSync_writeFileSync d p text fs :
  existsSync d fs = true → existsSync d (writeFileSync p text fs) = true.
Proof.
  rewrite !existsSync_true. simpl. intros [Hd|Hf]; [by left|right].
  rewrite lookup_insert_is_Some. destruct (decide (p = d)); auto.
Qed.

Lemma existsSync_mkdirSync_mono d dir fs :
  existsSync d fs = true → existsSync d (mkdirSync dir fs) = true.
Proof.
  rewrite !existsSync_true. simpl. intros [Hd|Hf]; [left|by right].
  apply elem_of_union. by left.
Qed.

Lemma existsSync_mkdirSync dir fs : existsSync dir (mkdirSync dir fs) = true.
Proof.
  rewrite existsSync_true. left. unfold mkdirSync. cbn [fs_dirs].
  rewrite elem_of_union, elem_of_list_to_set. right. left.
Qed.

Lemma existsSync_writeFile_mono d out fs file :
  existsSync d fs = true → existsSync d (writeFile out fs file) = true.
Proof.
  intros Hd. unfold writeFile. apply existsSync_writeFileSync.
  case_match; [done|]. by apply existsSync_mkdirSync_mono.
Qed.

(** After a file is written its directory is there. *)
Lemma existsSync_writeFile out fs file :
  existsSync (path_dirname (path_resolve out (filename file)))
    (writeFile out fs file) = true.
Proof.
  unfold writeFile. apply existsSync_writeFileSync.
  case_match; [done|]. apply existsSync_mkdirSync.
Qed.

Lemma existsSync_foldl_mono d out files fs :
  existsSync d fs = true → existsSync d (foldl (writeFile out) fs files) = true.
Proof.
  revert fs. induction files as [|file files IH]; intros fs Hd; simpl; [done|].
  by apply IH, existsSync_writeFile_mono.
Qed.

Lemma existsSync_after_run out files fs :
  Forall (λ file,
    existsSync (path_dirname (path_resolve out (filename file)))
      (foldl (writeFile out) fs files) = true) files.
Proof.
  revert fs. induction files as [|file files IH]; intros fs; simpl; constructor.
  - apply existsSync_foldl_mono, existsSync_writeFile.
  - apply IH.
Qed.

(** Where the directories are there already the loop only writes. *)
Lemma foldl_writeFile_existing out files fs :
  Forall (λ file,
    existsSync (path_dirname (path_resolve out (filename file))) fs = true) files →
  foldl (writeFile out) fs files =
    mkFS
      (foldl (λ m file, <[path_resolve out (filename file) := contents file]> m)
         (fs_files fs) files)
      (fs_dirs fs).
Proof.
  revert fs. induction files as [|file files IH]; intros fs Hall; simpl.
  - by destruct fs.
  - apply list.Forall_cons in Hall as [Hfile Hfiles].
    assert (writeFile out fs file =
      writeFileSync (path_resolve out (filename file)) (contents file) fs)
      as Hw by (unfold writeFile; by rewrite Hfile).
    rewrite Hw, IH; [done|].
    eapply list.Forall_impl; [exact Hfiles|]. intros f Hf. simpl in Hf.
    by apply existsSync_writeFileSync.
Qed.

Lemma fs_files_foldl_writeFile out files fs :
  fs_files (foldl (writeFile out) fs files) =
    foldl (λ m file, <[path_resolve out (filename file) := contents file]> m)
      (fs_files fs) files.
Proof.
  revert fs. induction files as [|file files IH]; intros fs; simpl; [done|].
  rewrite IH. f_equal. unfold writeFile. simpl. by case_match.
Qed.

(** A write that the loop repeats at its end may be dropped from its
    start. *)
Lemma foldl_insert_overwritten (path : File → string) files file (m : gmap string string) :
  <[path file := contents file]>
    (foldl (λ m f, <[path f := contents f]> m) (<[path file := contents file]> m) files) =
  <[path file := contents file]>
    (foldl (λ m f, <[path f := contents f]> m) m files).
Proof.
  revert m. induction files as [|g files IH]; intros m; simpl.
  - by rewrite insert_insert_eq.
  - destruct (decide (path g = path file)) as [Heq|Hne].
    + by rewrite Heq, insert_insert_eq.
    + rewrite (insert_insert_ne m) by done. apply IH.
Qed.

(** Writing the same files over what they wrote changes nothing. *)
Lemma foldl_insert_idempotent (path : File → string) files (m : gmap string string) :
  foldl (λ m f, <[path f := contents f]> m)
    (foldl (λ m f, <[path f := contents f]> m) m files) files =
  foldl (λ m f, <[path f := contents f]> m) m files.
Proof.
  revert m. induction files as [|file files IH] using rev_ind; intros m; [done|].
  rewrite !foldl_app. simpl.
  rewrite foldl_insert_overwritten. by rewrite IH.
Qed.

(** C8: generation is a function of the parsed schema, and running the
    command again on the sink it has written leaves every path and
    every content as the first run left them, the outcome being the
    same. *)
Theorem action_idempotent (schema : Document) (outputDirectory : string) (fs : FS) :
  action schema outputDirectory (action schema outputDirectory fs).1 =
  action schema outputDirectory fs.
Proof.
  unfold action. destruct (generate schema) as [files|e]; simpl; [|done].
  f_equal.
  rewrite (foldl_writeFile_existing _ _ _ (existsSync_after_run outputDirectory files fs)).
  rewrite fs_files_foldl_writeFile, foldl_insert_idempotent.
  rewrite <- fs_files_foldl_writeFile. by destruct (foldl _ fs files).
Qed.

End GeneratorProperties.

(** ** Descriptions and roots *)

(** C9: a definition, field, argument or enum value without a
    description yields a record whose description is the empty
    string. *)
Theorem absent_description_empty (def enumDef : DefinitionNode) (field : FieldNode)
    (arg : InputValueNode) (val : EnumValueNode) :
  def_description def = None →
  def_description enumDef = None →
  f_description field = None →
  iv_description arg = None →
  ev_description val = None →
  (∀ r, typeRecord def = Ok r → tr_description r = "") ∧
  (∀ r, enumRecord enumDef = Ok r → er_description r = "") ∧
  (∀ r, fieldRecord (f_name field) (f_description field) (f_type field) = Ok r →
        fr_description r = "") ∧
  (∀ r, fieldRecord (iv_name arg) (iv_description arg) (iv_type arg) = Ok r →
        fr_description r = "") ∧
  (∀ r, operationRecord field = Ok r → op_description r = "") ∧
  evr_description (enumValueRecord val) = "".
Proof.
  intros Hdef Henum Hfield Harg Hval. repeat split.
  - intros r ->%typeRecord_description. by rewrite Hdef.
  - intros r ->%enumRecord_description. by rewrite Henum.
  - intros r [_ ->]%fieldRecord_description. by rewrite Hfield.
  - intros r [_ ->]%fieldRecord_description. by rewrite Harg.
  - intros r [_ ->]%operationRecord_description. by rewrite Hfield.
  - unfold enumValueRecord. simpl. by rewrite Hval.
Qed.

(** C10: the root of the operations is the first definition that
    carries the root's name, of whatever kind it is; the definitions
    after it, of the same name or not, have no part in the result. *)
Theorem operationRecords_first_named (root : string)
    (before : list DefinitionNode) (def : DefinitionNode) (after : list DefinitionNode) :
  Forall (λ d, is_Some (def_name d) ∧ def_name d ≠ Some root) before →
  def_name def = Some root →
  Forall (λ d, is_Some (def_name d)) after →
  rootDefinition root (mkDocument (before ++ def :: after)) = Some def ∧
  operationRecords root (mkDocument (before ++ def :: after)) =
    (ops ← read "map" id (def_fields def); arrayMap operationRecord ops).
Proof.
  intros Hbefore Hdef Hafter.
  assert (filter (λ d, def_name d = Some root) (before ++ def :: after) =
          def :: filter (λ d, def_name d = Some root) after) as Hfilter.
  { rewrite filter_app, filter_cons_True by done.
    rewrite (filter_none _ before); [done|].
    rewrite list.Forall_forall in Hbefore. intros d Hin. by apply Hbefore. }
  split.
  - unfold rootDefinition. simpl. by rewrite Hfilter.
  - unfold operationRecords. simpl. rewrite arrayFilter_isNamed.
    + by rewrite Hfilter.
    + apply Forall_app. split.
      * eapply list.Forall_impl; [exact Hbefore|]. by intros d [? _].
      * constructor; [by rewrite Hdef|done].
Qed.

(** ** The generator on the demonstration schema *)

Lemma missing_root_aborts_witness :
  ("Mutation" = "Query" ∨ "Mutation" = "Mutation") ∧
  Forall (λ def, def_name def ≠ Some "Mutation") (definitions Demo.noMutation) ∧
  (∃ e, operationRecords "Mutation" Demo.noMutation = Throw e ∧
        (Forall (λ def, is_Some (def_name def)) (definitions Demo.noMutation) →
         e = TypeError "fields")) ∧
  (∃ e, Demo.generate Demo.noMutation = Throw e ∧
        Demo.action Demo.noMutation "/out" Demo.emptyFS = (Demo.emptyFS, Some e)).
Proof.
  assert (Forall (λ def, def_name def ≠ Some "Mutation") (definitions Demo.noMutation))
    as Hnone by (repeat constructor; discriminate).
  split; [by right|]. split; [exact Hnone|].
  apply (missing_root_aborts Demo.typeTemplate Demo.typeTemplate Demo.enumTemplate
           Demo.resolverTemplate Demo.path_resolve Demo.path_dirname
           "Mutation" Demo.noMutation "/out" Demo.emptyFS);
    [by right|exact Hnone].
Defined.

Lemma typeRecords_exclude_reserved_witness :
  typeRecords Demo.schema = Ok [Demo.widgetRecord] ∧
  Forall (λ r, (tr_name r ∉ graphqlArtifactNames) ∧
               ∃ def, def ∈ definitions Demo.schema ∧
                      def_kind def = "ObjectTypeDefinition" ∧
                      def_name def = Some (tr_name r)) [Demo.widgetRecord].
Proof.
  split; [reflexivity|].
  apply (typeRecords_exclude_reserved Demo.schema [Demo.widgetRecord]). reflexivity.
Defined.

Lemma generate_cardinality_witness :
  wellFormed Demo.schema = true ∧
  Demo.generate Demo.schema = Ok Demo.files ∧
  length Demo.files = 1 + 1 + 1 + 1 + 1.
Proof.
  split; [reflexivity|]. split; [reflexivity|].
  destruct (generate_cardinality Demo.typeTemplate Demo.typeTemplate Demo.enumTemplate
              Demo.resolverTemplate Demo.schema eq_refl)
    as (ins & ens & ts & qs & ms & _ & _ & _ & _ & _ & Hg & _ & _ & _ & _ & _ & Hlen).
  assert (Demo.files = ins ++ ens ++ ts ++ qs ++ ms) as ->.
  { assert (Demo.generate Demo.schema = Ok Demo.files) as Hd by reflexivity.
    unfold Demo.generate in Hd. congruence. }
  exact Hlen.
Defined.

(** The path of a generated file is not the directory joined with the
    name alone. *)
Lemma generate_paths_not_layout :
  Demo.generate Demo.schema = Ok Demo.files ∧
  map filename Demo.files ≠
    [ layoutPath "inputs/" "WidgetInput"; layoutPath "types/" "Color";
      layoutPath "types/" "Widget"; layoutPath "resolvers/queries/" "widgets";
      layoutPath "resolvers/mutations/" "createWidget" ].
Proof. split; [reflexivity|discriminate]. Qed.

Lemma generate_paths_witness :
  Demo.generate Demo.schema = Ok Demo.files ∧
  ∃ irs ers trs qrs mrs,
    inputRecords Demo.schema = Ok irs ∧
    enumRecords Demo.schema = Ok ers ∧
    typeRecords Demo.schema = Ok trs ∧
    operationRecords "Query" Demo.schema = Ok qrs ∧
    operationRecords "Mutation" Demo.schema = Ok mrs ∧
    map filename Demo.files =
      map (λ r, layoutPath "inputs/" (tr_name r) +:+ ".ts") irs ++
      map (λ r, layoutPath "types/" (er_name r) +:+ ".ts") ers ++
      map (λ r, layoutPath "types/" (tr_name r) +:+ ".ts") trs ++
      map (λ r, layoutPath "resolvers/queries/" (op_name r) +:+ ".ts") qrs ++
      map (λ r, layoutPath "resolvers/mutations/" (op_name r) +:+ ".ts") mrs.
Proof.
  split; [reflexivity|].
  apply (generate_paths Demo.typeTemplate Demo.typeTemplate Demo.enumTemplate
           Demo.resolverTemplate Demo.schema Demo.files).
  reflexivity.
Defined.

Lemma absent_description_empty_witness :
  def_description Demo.widget = None ∧
  def_description Demo.color = None ∧
  f_description (mkField "id" None (NonNullType (NamedType "ID")) (Some [])) = None ∧
  iv_description (mkInputValue "input" None (NonNullType (NamedType "String"))) = None ∧
  ev_description (mkEnumValue "red" None) = None ∧
  typeRecord Demo.widget = Ok Demo.widgetRecord ∧
  tr_description Demo.widgetRecord = "".
Proof.
  do 6 (split; [reflexivity|]).
  destruct (absent_description_empty Demo.widget Demo.color
              (mkField "id" None (NonNullType (NamedType "ID")) (Some []))
              (mkInputValue "input" None (NonNullType (NamedType "String")))
              (mkEnumValue "red" None) eq_refl eq_refl eq_refl eq_refl eq_refl)
    as [Htype _].
  apply Htype. reflexivity.
Defined.

Lemma operationRecords_first_named_witness :
  rootDefinition "Query"
    (mkDocument ([Demo.widget] ++ Demo.queryInterface :: [Demo.query; Demo.mutation]))
    = Some Demo.queryInterface ∧
  operationRecords "Query"
    (mkDocument ([Demo.widget] ++ Demo.queryInterface :: [Demo.query; Demo.mutation]))
    = (ops ← read "map" id (def_fields Demo.queryInterface);
       arrayMap operationRecord ops).
Proof.
  apply (operationRecords_first_named "Query" [Demo.widget] Demo.queryInterface
           [Demo.query; Demo.mutation]).
  - repeat constructor; [by eexists|discriminate].
  - reflexivity.
  - repeat constructor; by eexists.
Defined.

(** ** Further properties of the type resolver *)

Lemma getListItemGraphqlType_Ok v n :
  getListItemGraphqlType v = Ok n →
  v = Some (NamedType n) ∨ v = Some (NonNullType (NamedType n)).
Proof.
  destruct v as [[m|t|t]|]; simpl; try discriminate.
  - intros [= ->]. by left.
  - destruct t; simpl; try discriminate. intros [= ->]. by right.
Qed.

(** X1: the element of a list resolves exactly when it is a named type,
    bare or non-null, and then to that name; a list element throws the
    nesting-level error and an absent element the failed read of
    [kind]. *)
Theorem getListItemGraphqlType_spec (v : option TypeNode) (n : string) :
  (getListItemGraphqlType v = Ok n ↔
     v = Some (NamedType n) ∨ v = Some (NonNullType (NamedType n))) ∧
  getListItemGraphqlType None = Throw (TypeError "kind") ∧
  (∀ t, getListItemGraphqlType (Some (ListType t))
          = Throw (Error "Unsupported type nesting level")) ∧
  (∀ t, getListItemGraphqlType (Some (NonNullType (ListType t)))
          = Throw (TypeError "value")).
Proof.
  repeat split; try done.
  - apply getListItemGraphqlType_Ok.
  - by intros [-> | ->].
Qed.

(** X2: [getNullableGraphqlType] returns on a named type only, with the
    name, nullable and not an array; on a list or non-null node it
    throws the failed read of [value], on an absent node that of
    [name]. *)
Theorem getNullableGraphqlType_spec (v : option TypeNode) (d : Descriptor) :
  (getNullableGraphqlType v = Ok d ↔
     ∃ n, v = Some (NamedType n) ∧ d = mkDescriptor n true false) ∧
  getNullableGraphqlType None = Throw (TypeError "name") ∧
  (∀ t, getNullableGraphqlType (Some (ListType t)) = Throw (TypeError "value")) ∧
  (∀ t, getNullableGraphqlType (Some (NonNullType t)) = Throw (TypeError "value")).
Proof.
  repeat split; try done.
  - destruct v as [[n|t|t]|]; simpl; try discriminate. intros [= Hd]. eauto.
  - by intros (n & -> & ->).
Qed.

(** The cases of the resolver's switch. *)
Lemma getGraphqlType_ListType_eq e :
  getGraphqlType (ListType e) =
    (nestedListType ← getListItemGraphqlType (node_type e);
     Ok (mkDescriptor nestedListType true true)).
Proof. reflexivity. Qed.

Lemma getGraphqlType_NonNull_ListType_eq e :
  getGraphqlType (NonNullType (ListType e)) =
    (nestedListType ← getListItemGraphqlType (Some e);
     Ok (mkDescriptor nestedListType false true)).
Proof. reflexivity. Qed.

Lemma getGraphqlType_NonNull_NonNull_eq t :
  getGraphqlType (NonNullType (NonNullType t)) = Throw (Error "Unsupported type hierarchy").
Proof. reflexivity. Qed.

(** X3: when the resolver returns, the descriptor is nullable exactly
    when the node is not a non-null node, and an array exactly when the
    node is a list or a non-null list. *)
Theorem getGraphqlType_flags (t : TypeNode) (d : Descriptor) :
  getGraphqlType t = Ok d →
  d_isNullable d = negb (String.eqb (node_kind t) "NonNullType") ∧
  d_isArray d =
    match t with
    | ListType _ | NonNullType (ListType _) => true
    | _ => false
    end.
Proof.
  destruct t as [n|e|[n|e|y]].
  - by intros [= <-].
  - rewrite getGraphqlType_ListType_eq. by intros (item & _ & [= <-])%bind_Ok.
  - by intros [= <-].
  - rewrite getGraphqlType_NonNull_ListType_eq. by intros (item & _ & [= <-])%bind_Ok.
  - by rewrite getGraphqlType_NonNull_NonNull_eq.
Qed.

(** X4: when the resolver returns, the base name is the name at the
    bottom of the node, and the node has at most three list and
    non-null markers around it. *)
Theorem getGraphqlType_leaf (t : TypeNode) (d : Descriptor) :
  getGraphqlType t = Ok d → d_type d = leafName t ∧ wrappers t ≤ 3.
Proof.
  destruct t as [n|e|[n|e|y]].
  - intros [= <-]. simpl. split; [done|lia].
  - rewrite getGraphqlType_ListType_eq.
    intros (name & Hitem%getListItemGraphqlType_Ok & [= <-])%bind_Ok.
    destruct e as [n|x|x]; simpl in Hitem; [by destruct Hitem| |];
      destruct Hitem as [[= ->] | [= ->]]; simpl; split; (done || lia).
  - intros [= <-]. simpl. split; [done|lia].
  - rewrite getGraphqlType_NonNull_ListType_eq.
    intros (name & [[= ->] | [= ->]]%getListItemGraphqlType_Ok & [= <-])%bind_Ok;
      simpl; split; (done || lia).
  - by rewrite getGraphqlType_NonNull_NonNull_eq.
Qed.

(** X5: the resolver throws nothing but the failed reads of [kind] and
    of [value] and the errors of an unsupported hierarchy and of an
    unsupported nesting level; the default case of its switch is never
    taken. *)
Theorem getGraphqlType_throws (t : TypeNode) (e : exn) :
  getGraphqlType t = Throw e →
  e = TypeError "kind" ∨ e = TypeError "value" ∨
  e = Error "Unsupported type hierarchy" ∨
  e = Error "Unsupported type nesting level".
Proof.
  destruct t as [n|t|t]; [done| |].
  - destruct t as [n|t|t]; [intros [= <-]; auto| |];
      (destruct t as [n|t|t]; [done|intros [= <-]; auto|]);
      (destruct t as [n|t|t]; [done|intros [= <-]; auto..]).
  - destruct t as [n|t|t]; [done| |intros [= <-]; auto].
    destruct t as [n|t|t]; [done|intros [= <-]; auto|].
    destruct t as [n|t|t]; [done|intros [= <-]; auto..].
Qed.

(** X6: a string the scalar mapper returns is mapped to itself: no
    primitive of the table is a name of the table or a member of the
    prototype. *)
Theorem scalarType_fixed_point (n v : string) :
  scalarType n = JsString v → scalarType v = JsString v.
Proof.
  intros Hn. destruct (scalarType_total n) as [H|[(w & H & Hin)|H]].
  - congruence.
  - assert (v = w) as -> by congruence. clear -Hin. unfold scalarMap in Hin.
    repeat (apply elem_of_cons in Hin as [[= _ ->]|Hin]; [reflexivity|]).
    by apply elem_of_nil in Hin.
  - congruence.
Qed.

(** ** Further properties of extraction *)

Lemma descriptionOf_default description :
  descriptionOf description = default "" description.
Proof.
  destruct description as [value|]; simpl; [|done].
  by destruct (String.eqb_spec value "").
Qed.

Lemma fieldRecord_Ok name description type r :
  fieldRecord name description type = Ok r →
  fr_name r = name ∧
  fr_description r = default "" description ∧
  getGraphqlType type
    = Ok (mkDescriptor (fr_graphqlType r) (fr_isNullable r) (fr_isArray r)) ∧
  fr_type r = scalarType (fr_graphqlType r).
Proof.
  unfold fieldRecord. intros (d & Hd & [= <-])%bind_Ok. simpl.
  rewrite descriptionOf_default, Hd. by destruct d.
Qed.

(** X7: the record of a type or of an input has the name of the
    definition, its description (empty when absent) and one field
    record per field, in the order of the fields: each with the name
    and description of its field, the descriptor the resolver gives for
    the field's type, and the scalar mapper's result for the base
    name. *)
Theorem typeRecord_fields (def : DefinitionNode) (r : TypeRecord) :
  typeRecord def = Ok r →
  def_name def = Some (tr_name r) ∧
  tr_description r = default "" (def_description def) ∧
  ∃ fields, def_fields def = Some fields ∧
    Forall2 (λ field fr,
      fr_name fr = f_name field ∧
      fr_description fr = default "" (f_description field) ∧
      getGraphqlType (f_type field)
        = Ok (mkDescriptor (fr_graphqlType fr) (fr_isNullable fr) (fr_isArray fr)) ∧
      fr_type fr = scalarType (fr_graphqlType fr)) fields (tr_fields r).
Proof.
  unfold typeRecord.
  intros (name & (n & Hn & ->)%read_Ok &
          (fs & (fields & Hf & ->)%read_Ok &
           (rs & Hmap%arrayMap_Forall2 & [= <-])%bind_Ok)%bind_Ok)%bind_Ok.
  simpl. rewrite descriptionOf_default. repeat split; [done|].
  exists fields. split; [done|].
  eapply Forall2_impl; [exact Hmap|]. intros field fr. apply fieldRecord_Ok.
Qed.

(** X8: the record of an operation has the name and description of the
    root's field, the descriptor of its result type, and one argument
    record per argument, in order; [hasArguments] holds exactly when the
    field has an argument. *)
Theorem operationRecord_arguments (op : FieldNode) (r : OperationRecord) :
  operationRecord op = Ok r →
  op_name r = f_name op ∧
  op_description r = default "" (f_description op) ∧
  getGraphqlType (f_type op)
    = Ok (mkDescriptor (op_graphqlType r) (op_isNullable r) (op_isArray r)) ∧
  op_type r = scalarType (op_graphqlType r) ∧
  ∃ args, f_arguments op = Some args ∧
    (op_hasArguments r = true ↔ args ≠ []) ∧
    Forall2 (λ arg fr,
      fr_name fr = iv_name arg ∧
      fr_description fr = default "" (iv_description arg) ∧
      getGraphqlType (iv_type arg)
        = Ok (mkDescriptor (fr_graphqlType fr) (fr_isNullable fr) (fr_isArray fr)) ∧
      fr_type fr = scalarType (fr_graphqlType fr)) args (op_arguments r).
Proof.
  unfold operationRecord.
  intros (d & Hd & (as' & (args & Hargs & ->)%read_Ok &
          (rs & Hmap%arrayMap_Forall2 & [= <-])%bind_Ok)%bind_Ok)%bind_Ok.
  simpl. rewrite descriptionOf_default, Hd. repeat split; [by destruct d|].
  exists args. repeat split; [done|..].
  - intros Hlen%bool_decide_eq_true ->.
    apply Forall2_length in Hmap. simpl in Hmap. lia.
  - intros Hne. apply bool_decide_eq_true.
    apply Forall2_length in Hmap. destruct args; [done|]. simpl in *. lia.
  - eapply Forall2_impl; [exact Hmap|]. intros arg fr. apply fieldRecord_Ok.
Qed.

(** X9: the record of an enum is built exactly when the definition
    carries a name and values; it copies the name, the description
    (empty when absent) and, in order, the name and description of
    every value. *)
Theorem enumRecord_spec (def : DefinitionNode) (r : EnumRecord) :
  enumRecord def = Ok r ↔
  ∃ name values,
    def_name def = Some name ∧ def_values def = Some values ∧
    r = mkEnumRecord name (default "" (def_description def))
          (map (λ val, mkEnumValueRecord (ev_name val)
                         (default "" (ev_description val))) values).
Proof.
  unfold enumRecord. split.
  - intros (name & (n & Hn & ->)%read_Ok &
            (vs & (values & Hv & ->)%read_Ok & [= <-])%bind_Ok)%bind_Ok.
    exists n, values. repeat split; [done..|].
    rewrite descriptionOf_default. f_equal. apply map_ext. intros val.
    unfold enumValueRecord. by rewrite descriptionOf_default.
  - intros (name & values & -> & -> & ->). simpl.
    rewrite descriptionOf_default. do 2 f_equal. apply map_ext. intros val.
    unfold enumValueRecord. by rewrite descriptionOf_default.
Qed.

Lemma arrayMap_names {A B} (f : A → result B) (nameOf : A → option string)
    (recordName : B → string) xs ys :
  (∀ x y, f x = Ok y → nameOf x = Some (recordName y)) →
  arrayMap f xs = Ok ys →
  map nameOf xs = map (Some ∘ recordName) ys.
Proof.
  intros Hname Hmap%arrayMap_Forall2.
  induction Hmap as [|x y xs ys Hxy _ IH]; simpl; [done|].
  by rewrite (Hname _ _ Hxy), IH.
Qed.

Lemma enumRecord_name def r :
  enumRecord def = Ok r → def_name def = Some (er_name r).
Proof.
  unfold enumRecord.
  by intros (name & (n & Hn & ->)%read_Ok & (vs & _ & [= <-])%bind_Ok)%bind_Ok.
Qed.

(** X10: the records of the object types, of the inputs and of the
    enums follow the order of the document: their names are the names
    of the definitions of their category, one record per definition. *)
Theorem records_in_document_order (schema : Document)
    (trs irs : list TypeRecord) (ers : list EnumRecord) :
  typeRecords schema = Ok trs →
  inputRecords schema = Ok irs →
  enumRecords schema = Ok ers →
  map (Some ∘ tr_name) trs
    = map def_name (filter ordinaryObjectType (definitions schema)) ∧
  map (Some ∘ tr_name) irs
    = map def_name (filter (λ def, def_kind def = "InputObjectTypeDefinition")
                      (definitions schema)) ∧
  map (Some ∘ er_name) ers
    = map def_name (filter (λ def, def_kind def = "EnumTypeDefinition")
                      (definitions schema)).
Proof.
  unfold typeRecords, inputRecords, enumRecords.
  intros (tdefs & [_ ->]%arrayFilter_Ok & Ht)%bind_Ok
         (idefs & [_ ->]%arrayFilter_Ok & Hi)%bind_Ok
         (edefs & [_ ->]%arrayFilter_Ok & He)%bind_Ok.
  repeat split; symmetry.
  - rewrite <- (list_filter_iff _ _ _ isObjectType_true).
    eapply arrayMap_names; [|exact Ht]. apply typeRecord_name.
  - rewrite <- (list_filter_iff _ _ _ (λ def, isKind_true _ def)).
    eapply arrayMap_names; [|exact Hi]. apply typeRecord_name.
  - rewrite <- (list_filter_iff _ _ _ (λ def, isKind_true _ def)).
    eapply arrayMap_names; [|exact He]. apply enumRecord_name.
Qed.

(** X11: the operations of a root are one per field of the first
    definition that carries the root's name, in the order of its
    fields, each under the name of its field. *)
Theorem operationRecords_in_field_order (root : string) (schema : Document)
    (records : list OperationRecord) :
  operationRecords root schema = Ok records →
  ∃ def ops,
    rootDefinition root schema = Some def ∧ def_fields def = Some ops ∧
    map op_name records = map f_name ops.
Proof.
  intros (def & ops & Hroot & Hfields & Hmap%arrayMap_Forall2)%operationRecords_Ok.
  exists def, ops. split; [done|]. split; [done|]. clear Hroot Hfields.
  induction Hmap as [|op r ops' rs Hop _ IH]; simpl; [done|].
  apply operationRecord_description in Hop as [-> _]. by rewrite IH.
Qed.

(** ** Further properties of generation and of the write loop *)

Lemma bind_Ok_id {A} (m : result A) : (m ≫= λ x, Ok x) = m.
Proof. by destruct m. Qed.

(** An element the predicate rejects leaves the filter as it is without
    it, exceptions included. *)
Lemma arrayFilter_skip {A} (p : A → result bool) xs x ys :
  p x = Ok false → arrayFilter p (xs ++ x :: ys) = arrayFilter p (xs ++ ys).
Proof.
  intros Hx. induction xs as [|y xs IH]; simpl.
  - rewrite Hx. simpl. apply bind_Ok_id.
  - by rewrite IH.
Qed.

Lemma foldl_insert_lookup_ne (path : File → string) files (m : gmap string string) p :
  Forall (λ file, path file ≠ p) files →
  foldl (λ m f, <[path f := contents f]> m) m files !! p = m !! p.
Proof.
  revert m. induction files as [|file files IH]; intros m Hall; simpl; [done|].
  apply list.Forall_cons in Hall as [Hfile Hfiles].
  rewrite IH by done. by rewrite lookup_insert_ne.
Qed.

Section FurtherProperties.

Variable typeTemplate : TypeRecord → string.
Variable inputTemplate : TypeRecord → string.
Variable enumTemplate : EnumRecord → string.
Variable resolverTemplate : OperationRecord → string.
Variable path_resolve : string → string → string.
Variable path_dirname : string → string.

Local Abbreviation generate :=
  (generate typeTemplate inputTemplate enumTemplate resolverTemplate).
Local Abbreviation action :=
  (action typeTemplate inputTemplate enumTemplate resolverTemplate
     path_resolve path_dirname).
Local Abbreviation writeFile := (writeFile path_resolve path_dirname).

Lemma writeFile_keeps out fs file :
  fs_dirs fs ⊆ fs_dirs (writeFile out fs file) ∧
  dom (fs_files fs) ⊆ dom (fs_files (writeFile out fs file)).
Proof.
  unfold writeFile, writeFileSync, mkdirSync. cbn [fs_dirs fs_files].
  rewrite dom_insert_L. case_match; cbn [fs_dirs fs_files]; set_solver.
Qed.

Lemma foldl_writeFile_keeps out files fs :
  fs_dirs fs ⊆ fs_dirs (foldl (writeFile out) fs files) ∧
  dom (fs_files fs) ⊆ dom (fs_files (foldl (writeFile out) fs files)).
Proof.
  revert fs. induction files as [|file files IH]; intros fs; simpl; [done|].
  destruct (writeFile_keeps out fs file) as [Hd Hf].
  destruct (IH (writeFile out fs file)) as [Hd' Hf'].
  split; by etrans.
Qed.

(** X12: a path that no generated file resolves to holds after the
    command what it held before. *)
Theorem action_other_paths (schema : Document) (outputDirectory : string) (fs : FS)
    (files : list File) (p : string) :
  generate schema = Ok files →
  Forall (λ file, path_resolve outputDirectory (filename file) ≠ p) files →
  fs_files (action schema outputDirectory fs).1 !! p = fs_files fs !! p.
Proof.
  intros Hgen Hother. unfold action. rewrite Hgen. cbn [fst].
  rewrite fs_files_foldl_writeFile.
  by apply (foldl_insert_lookup_ne (λ f, path_resolve outputDirectory (filename f))).
Qed.


(** X14: the command removes nothing: every directory and every file
    of the sink is still there afterwards, whether generation returned
    or threw. *)
Theorem action_never_removes (schema : Document) (outputDirectory : string) (fs : FS) :
  fs_dirs fs ⊆ fs_dirs (action schema outputDirectory fs).1 ∧
  dom (fs_files fs) ⊆ dom (fs_files (action schema outputDirectory fs).1).
Proof.
  unfold action. destruct (generate schema) as [files|e]; cbn [fst]; [|done].
  apply foldl_writeFile_keeps.
Qed.

(** X15: after the command the directory of every generated file
    exists. *)
Theorem action_directories_exist (schema : Document) (outputDirectory : string)
    (fs : FS) (files : list File) :
  generate schema = Ok files →
  Forall (λ file,
    existsSync (path_dirname (path_resolve outputDirectory (filename file)))
      (action schema outputDirectory fs).1 = true) files.
Proof.
  intros Hgen. unfold action. rewrite Hgen. cbn [fst].
  apply existsSync_after_run.
Qed.

(** X16: an enum and an object type of the same name are given the same
    path under [types/], and the file of the object type comes later in
    the list, so that it is the one written last. *)
Theorem enum_and_type_share_path (schema : Document) (files : list File)
    (ers : list EnumRecord) (trs : list TypeRecord)
    (er : EnumRecord) (tr : TypeRecord) :
  generate schema = Ok files →
  enumRecords schema = Ok ers →
  typeRecords schema = Ok trs →
  er ∈ ers → tr ∈ trs → er_name er = tr_name tr →
  filename (enumFile enumTemplate er) = filename (typeFile typeTemplate tr) ∧
  ∃ l1 l2 l3,
    files = l1 ++ enumFile enumTemplate er :: l2 ++ typeFile typeTemplate tr :: l3.
Proof.
  intros (irs & ers' & trs' & qrs & mrs & Hi & He & Ht & Hq & Hm & ->)%generate_Ok
    He' Ht' (a & b & ->)%list_elem_of_split (c & d & ->)%list_elem_of_split Hname.
  assert (ers' = a ++ er :: b) as -> by congruence.
  assert (trs' = c ++ tr :: d) as -> by congruence.
  split; [unfold enumFile, typeFile; simpl; by rewrite Hname|].
  exists (map (inputFile inputTemplate) irs ++ map (enumFile enumTemplate) a),
         (map (enumFile enumTemplate) b ++ map (typeFile typeTemplate) c),
         (map (typeFile typeTemplate) d ++ map (queryFile resolverTemplate) qrs ++
          map (mutationFile resolverTemplate) mrs).
  rewrite !map_app. simpl. by rewrite <- !app_assoc.
Qed.

(** X17: an object type definition named [Subscription] or [root] has
    no part in generation: with it or without it the result is the
    same, files and exceptions alike, whatever its fields are. *)
Theorem generate_ignores_reserved (before : list DefinitionNode) (def : DefinitionNode)
    (after : list DefinitionNode) (name : string) :
  def_kind def = "ObjectTypeDefinition" →
  def_name def = Some name →
  name = "Subscription" ∨ name = "root" →
  generate (mkDocument (before ++ def :: after)) = generate (mkDocument (before ++ after)).
Proof.
  intros Hkind Hname Hreserved.
  assert (isObjectType def = Ok false) as Hobj.
  { unfold isObjectType. rewrite Hkind, Hname. simpl.
    rewrite bool_decide_false; [done|]. intros Hnot. apply Hnot.
    unfold graphqlArtifactNames. destruct Hreserved as [-> | ->]; set_solver. }
  assert (isInputType def = Ok false) as Hinput
    by (unfold isInputType; by rewrite Hkind).
  assert (isEnumType def = Ok false) as Henum
    by (unfold isEnumType; by rewrite Hkind).
  assert (∀ root, root = "Query" ∨ root = "Mutation" → isNamed root def = Ok false)
    as Hroot.
  { intros root Hr. unfold isNamed. rewrite Hname. simpl. f_equal.
    apply String.eqb_neq. destruct Hreserved as [-> | ->], Hr as [-> | ->]; done. }
  unfold generate, types, inputs, enums, queryOperations, mutationOperations,
    typeRecords, inputRecords, enumRecords, operationRecords. simpl.
  rewrite !(arrayFilter_skip _ before def after) by auto. done.
Qed.

End FurtherProperties.

(** ** The further properties on the sample documents *)

Lemma getGraphqlType_flags_witness :
  getGraphqlType Sample.widgetList = Ok Sample.widgetListDescriptor ∧
  d_isNullable Sample.widgetListDescriptor = false ∧
  d_isArray Sample.widgetListDescriptor = true.
Proof.
  split; [reflexivity|].
  apply (getGraphqlType_flags Sample.widgetList Sample.widgetListDescriptor).
  reflexivity.
Defined.

Lemma getGraphqlType_leaf_witness :
  getGraphqlType Sample.widgetList = Ok Sample.widgetListDescriptor ∧
  d_type Sample.widgetListDescriptor = leafName Sample.widgetList ∧
  wrappers Sample.widgetList ≤ 3.
Proof.
  split; [reflexivity|].
  apply (getGraphqlType_leaf Sample.widgetList Sample.widgetListDescriptor).
  reflexivity.
Defined.

Lemma getGraphqlType_throws_witness :
  getGraphqlType (ListType (NamedType "String")) = Throw (TypeError "kind") ∧
  (TypeError "kind" = TypeError "kind" ∨ TypeError "kind" = TypeError "value" ∨
   TypeError "kind" = Error "Unsupported type hierarchy" ∨
   TypeError "kind" = Error "Unsupported type nesting level").
Proof.
  split; [reflexivity|].
  apply (getGraphqlType_throws (ListType (NamedType "String")) (TypeError "kind")).
  reflexivity.
Defined.

Lemma scalarType_fixed_point_witness :
  scalarType "ID" = JsString "string" ∧ scalarType "string" = JsString "string".
Proof.
  split; [reflexivity|].
  apply (scalarType_fixed_point "ID" "string"). reflexivity.
Defined.

Lemma typeRecord_fields_witness :
  typeRecord Demo.widget = Ok Demo.widgetRecord ∧
  def_name Demo.widget = Some (tr_name Demo.widgetRecord) ∧
  tr_description Demo.widgetRecord = default "" (def_description Demo.widget).
Proof.
  split; [reflexivity|].
  destruct (typeRecord_fields Demo.widget Demo.widgetRecord eq_refl) as (Hn & Hd & _).
  split; [exact Hn|exact Hd].
Defined.

Lemma operationRecord_arguments_witness :
  operationRecord Sample.createWidget = Ok Sample.createWidgetRecord ∧
  op_name Sample.createWidgetRecord = f_name Sample.createWidget ∧
  op_description Sample.createWidgetRecord
    = default "" (f_description Sample.createWidget).
Proof.
  split; [reflexivity|].
  destruct (operationRecord_arguments Sample.createWidget Sample.createWidgetRecord
              eq_refl) as (Hn & Hd & _).
  split; [exact Hn|exact Hd].
Defined.

Lemma records_in_document_order_witness :
  typeRecords Demo.schema = Ok [Demo.widgetRecord] ∧
  inputRecords Demo.schema = Ok [Sample.widgetInputRecord] ∧
  enumRecords Demo.schema = Ok [Sample.colorEnumRecord] ∧
  map (Some ∘ tr_name) [Demo.widgetRecord]
    = map def_name (filter ordinaryObjectType (definitions Demo.schema)).
Proof.
  do 3 (split; [reflexivity|]).
  destruct (records_in_document_order Demo.schema [Demo.widgetRecord]
              [Sample.widgetInputRecord] [Sample.colorEnumRecord]
              eq_refl eq_refl eq_refl) as (Ht & _).
  exact Ht.
Defined.

Lemma operationRecords_in_field_order_witness :
  operationRecords "Query" Demo.schema = Ok [Sample.widgetsRecord] ∧
  ∃ def ops,
    rootDefinition "Query" Demo.schema = Some def ∧ def_fields def = Some ops ∧
    map op_name [Sample.widgetsRecord] = map f_name ops.
Proof.
  split; [reflexivity|].
  apply (operationRecords_in_field_order "Query" Demo.schema [Sample.widgetsRecord]).
  reflexivity.
Defined.

Lemma action_other_paths_witness :
  Demo.generate Demo.schema = Ok Demo.files ∧
  Forall (λ file, Demo.path_resolve "/out" (filename file) ≠ "/out/README.md")
    Demo.files ∧
  fs_files (Demo.action Demo.schema "/out" Demo.emptyFS).1 !! "/out/README.md"
    = fs_files Demo.emptyFS !! "/out/README.md".
Proof.
  assert (Forall (λ file, Demo.path_resolve "/out" (filename file) ≠ "/out/README.md")
            Demo.files) as Hother by (repeat constructor; discriminate).
  split; [reflexivity|]. split; [exact Hother|].
  apply (action_other_paths Demo.typeTemplate Demo.typeTemplate Demo.enumTemplate
           Demo.resolverTemplate Demo.path_resolve Demo.path_dirname
           Demo.schema "/out" Demo.emptyFS Demo.files "/out/README.md");
    [reflexivity|exact Hother].
Defined.


Lemma action_directories_exist_witness :
  Demo.generate Demo.schema = Ok Demo.files ∧
  Forall (λ file,
    existsSync (Demo.path_dirname (Demo.path_resolve "/out" (filename file)))
      (Demo.action Demo.schema "/out" Demo.emptyFS).1 = true) Demo.files.
Proof.
  split; [reflexivity|].
  apply (action_directories_exist Demo.typeTemplate Demo.typeTemplate Demo.enumTemplate
           Demo.resolverTemplate Demo.path_resolve Demo.path_dirname
           Demo.schema "/out" Demo.emptyFS Demo.files).
  reflexivity.
Defined.

Lemma enum_and_type_share_path_witness :
  Demo.generate Sample.clash = Ok Sample.clashFiles ∧
  enumRecords Sample.clash = Ok [Sample.colorEnumRecord] ∧
  typeRecords Sample.clash = Ok [Sample.colorTypeRecord] ∧
  er_name Sample.colorEnumRecord = tr_name Sample.colorTypeRecord ∧
  filename (enumFile Demo.enumTemplate Sample.colorEnumRecord)
    = filename (typeFile Demo.typeTemplate Sample.colorTypeRecord).
Proof.
  do 4 (split; [reflexivity|]).
  destruct (enum_and_type_share_path Demo.typeTemplate Demo.typeTemplate
              Demo.enumTemplate Demo.resolverTemplate
              Sample.clash Sample.clashFiles
              [Sample.colorEnumRecord] [Sample.colorTypeRecord]
              Sample.colorEnumRecord Sample.colorTypeRecord
              eq_refl eq_refl eq_refl
              (list_elem_of_here _ _) (list_elem_of_here _ _) eq_refl) as [Hpath _].
  exact Hpath.
Defined.

Lemma generate_ignores_reserved_witness :
  def_kind Sample.subscription = "ObjectTypeDefinition" ∧
  def_name Sample.subscription = Some "Subscription" ∧
  Demo.generate
    (mkDocument ([Demo.widget] ++ Sample.subscription :: [Demo.query; Demo.mutation]))
  = Demo.generate (mkDocument ([Demo.widget] ++ [Demo.query; Demo.mutation])).
Proof.
  do 2 (split; [reflexivity|]).
  apply (generate_ignores_reserved Demo.typeTemplate Demo.typeTemplate
           Demo.enumTemplate Demo.resolverTemplate
           [Demo.widget] Sample.subscription [Demo.query; Demo.mutation] "Subscription");
    [reflexivity|reflexivity|by left].
Defined.

(** X18: the resolver returns on eight shapes and on no other: a named
    type, bare or non-null; a non-null list of a named type, bare or
    non-null; and a list whose element is a non-null or a list around
    a named type, bare or non-null. *)
Theorem getGraphqlType_returns (t : TypeNode) :
  succeeds (getGraphqlType t) = true ↔
  ∃ n,
    t = NamedType n ∨
    t = NonNullType (NamedType n) ∨
    t = NonNullType (ListType (NamedType n)) ∨
    t = NonNullType (ListType (NonNullType (NamedType n))) ∨
    t = ListType (NonNullType (NamedType n)) ∨
    t = ListType (ListType (NamedType n)) ∨
    t = ListType (NonNullType (NonNullType (NamedType n))) ∨
    t = ListType (ListType (NonNullType (NamedType n))).
Proof.
  split.
  - destruct t as [n|[n|[n|e|[n|e|e]]|[n|e|[n|e|e]]]|[n|[n|e|[n|e|e]]|e]];
      intros H; try discriminate H; exists n; tauto.
  - intros (n & Hshape).
    repeat (destruct Hshape as [-> | Hshape]; [reflexivity|]).
    by rewrite Hshape.
Qed.
